(** * Hydocs MCP server: documentation provisioning and lookup serving

    A shallow embedding of the TypeScript sources
      - [utils/lookup.ts]   : the memoised index loader ([loadLookup]),
      - [tools/handlers.ts] : the two query handlers ([searchHytaleClasses],
                              [readHytaleClassDocs]),
      - [utils/download.ts] : the provisioner ([downloadAndExtractDocs] and
                              its helpers),
      - [index.ts]          : the tool execution handler ([callTool]),
    over an explicit model of what they run against: the file system, the
    remote host, the process-wide lookup cache and the logger.

    Conventions.
      - A JavaScript string is a [string]; every character stands for one
        code unit of the Latin-1 range (U+0000 to U+00FF).
      - An [async] function is a function from the state of the [world] to
        an [outcome] (a returned value or a thrown error) and the next state.
        A thrown error keeps the effects that happened before it.
      - Metrics counters and timers of the handlers do not influence any
        result and are left out; log calls are kept (level and message).
      - Paths are POSIX paths, as in the container the server is built for.
      - What the sources take from their platform is modelled next to them:
        [fs/promises] on a file system of regular files and directories in
        which reads and writes of given paths can be refused, [fetch] on a
        remote host that replies, cannot be reached or never answers, and
        the extraction of [adm-zip] as one write per entry, in archive
        order, at the path the library derives from the entry's name. The
        decoders ([JSON.parse] on an index file, [AdmZip] on a buffer) are
        parameters; an index file that parses is taken to parse to a
        [ClassLookup], as the cast in [loadLookup] has it. *)

From Stdlib Require Import Ascii String.
From stdpp Require Import base gmap strings list pretty.

Local Open Scope string_scope.
Local Open Scope list_scope.
Local Open Scope nat_scope.
Local Open Scope stdpp_scope.

(** ** JavaScript string primitives *)
Module JS.

Definition dquote : string := String "034"%char EmptyString.
Definition newline : string := String "010"%char EmptyString.

(** [String.prototype.toLowerCase] on one code unit of the Latin-1 range:
    A-Z, and the accented capitals U+00C0..U+00DE except the sign U+00D7,
    move up by 32. *)
Definition lower_code (n : nat) : nat :=
  if (65 <=? n) && (n <=? 90) then n + 32
  else if (192 <=? n) && (n <=? 222) && negb (n =? 215) then n + 32
  else n.

Definition toLowerCase_char (c : ascii) : ascii :=
  ascii_of_nat (lower_code (nat_of_ascii c)).

Fixpoint toLowerCase (s : string) : string :=
  match s with
  | EmptyString => EmptyString
  | String c r => String (toLowerCase_char c) (toLowerCase r)
  end.

(** White space and line terminators removed by [String.prototype.trim]
    (those of the Latin-1 range): TAB, LF, VT, FF, CR, SP, NBSP. *)
Definition is_space (c : ascii) : bool :=
  let n := nat_of_ascii c in
  ((9 <=? n) && (n <=? 13)) || (n =? 32) || (n =? 160).

Fixpoint trimStart (s : string) : string :=
  match s with
  | EmptyString => EmptyString
  | String c r => if is_space c then trimStart r else s
  end.

Definition is_empty (s : string) : bool :=
  match s with EmptyString => true | _ => false end.

Fixpoint trimEnd (s : string) : string :=
  match s with
  | EmptyString => EmptyString
  | String c r =>
      let r' := trimEnd r in
      if is_space c && is_empty r' then EmptyString else String c r'
  end.

Definition trim (s : string) : string := trimEnd (trimStart s).

Fixpoint startsWith (s p : string) : bool :=
  match p, s with
  | EmptyString, _ => true
  | String a p', String b s' => Ascii.eqb a b && startsWith s' p'
  | String _ _, EmptyString => false
  end.

(** [s.includes(q)]: [q] occurs in [s] as a contiguous run. *)
Fixpoint includes (s q : string) : bool :=
  startsWith s q ||
  match s with
  | EmptyString => false
  | String _ r => includes r q
  end.

(** [!s] for a string: only the empty string is falsy. *)
Definition falsy (s : string) : bool := is_empty s.

(** [lines.join(sep)] *)
Fixpoint join (sep : string) (l : list string) : string :=
  match l with
  | [] => EmptyString
  | [x] => x
  | x :: r => x +:+ sep +:+ join sep r
  end.

End JS.

(** ** Types ([types/index.ts]) *)

Inductive ClassKind := KClass | KInterface | KEnum.

Definition kind_text (k : ClassKind) : string :=
  match k with
  | KClass => "class"
  | KInterface => "interface"
  | KEnum => "enum"
  end.

Record ClassInfo := mkClassInfo {
  full_name : string;
  path : string;
  type : ClassKind;
  package : string
}.

(** A [ClassLookup] object, given by its own properties in the order
    [Object.entries] enumerates them (the index iteration order). *)
Definition ClassLookup := list (string * ClassInfo).

Record SearchHytaleClassesArgs := { query : string }.
Record ReadHytaleClassDocsArgs := { full_class_name : string }.

(** ** POSIX [path.join] *)
Module Path.

Definition slash : ascii := "/"%char.

(** The segments of [s] between separators; [cur] is the segment read
    so far. *)
Fixpoint segments (s cur : string) : list string :=
  match s with
  | EmptyString => [cur]
  | String c r =>
      if Ascii.eqb c slash then cur :: segments r EmptyString
      else segments r (cur +:+ String c EmptyString)
  end.

(** One segment pushed on the stack of kept segments (innermost first):
    empty and [.] segments vanish, [..] pops a named segment and is kept
    only above the start of a relative path. *)
Definition push (aboveRoot : bool) (stack : list string) (seg : string)
  : list string :=
  if String.eqb seg "" || String.eqb seg "." then stack
  else if String.eqb seg ".." then
    match stack with
    | top :: rest =>
        if String.eqb top ".." then (if aboveRoot then seg :: stack else stack)
        else rest
    | [] => if aboveRoot then [seg] else []
    end
  else seg :: stack.

Fixpoint last_is_slash (s : string) : bool :=
  match s with
  | EmptyString => false
  | String c EmptyString => Ascii.eqb c slash
  | String _ r => last_is_slash r
  end.

Definition normalize (p : string) : string :=
  if JS.is_empty p then "."
  else
    let isAbsolute := JS.startsWith p "/" in
    let trailing := last_is_slash p in
    let body :=
      JS.join "/" (rev (fold_left (push (negb isAbsolute)) (segments p "") [])) in
    if JS.is_empty body then
      (if isAbsolute then "/" else if trailing then "./" else ".")
    else
      (if isAbsolute then "/" else "") +:+ body +:+ (if trailing then "/" else "").

(** [path.join(a, b)] for two string arguments. *)
Definition join (a b : string) : string :=
  match JS.is_empty a, JS.is_empty b with
  | true, true => "."
  | true, false => normalize b
  | false, true => normalize a
  | false, false => normalize (a +:+ "/" +:+ b)
  end.

End Path.

(** ** Entry names of [adm-zip]

    [extractAllTo] writes the entry named [n] at
    [sanitize(targetPath, canonical(n))] (the library's [util/utils.js]). *)
Module Utils.

Definition backslash : ascii := "092"%char.

(** [p.split(backslash).join("/")]. *)
Fixpoint slashes (p : string) : string :=
  match p with
  | EmptyString => EmptyString
  | String c r =>
      String (if Ascii.eqb c backslash then Path.slash else c) (slashes r)
  end.

(** [canonical(p)]: the name is normalised as if it were absolute, so that
    no [..] segment climbs above its start, and made relative again. *)
Definition canonical (p : string) : string :=
  if JS.is_empty p then ""
  else
    let safeSuffix := Path.normalize ("/" +:+ slashes p) in
    Path.join "." safeSuffix.

(** [sanitize(prefix, name)] keeps the longest suffix of [name] that stays
    below [prefix]. It is only called on a canonical name, which is relative
    and has no [..] segment: the whole name stays below the prefix, and the
    result is the normalised join. The library resolves [prefix] against the
    working directory first; the model keeps the directory as the sources
    spell it, which names the same file. *)
Definition sanitize (prefix name : string) : string :=
  Path.normalize (Path.join prefix name).

End Utils.

(** Where [extractAllTo] writes the entry named [entryName]. *)
Definition entry_path (destDir entryName : string) : string :=
  Utils.sanitize destDir (Utils.canonical entryName).

(** ** Errors

    A thrown value: the [name] of its class, its [message], and the [code]
    Node attaches to the errors of its own (absent on [new Error(...)]). *)
Record js_error := mkError {
  err_name : string;
  err_message : string;
  err_code : option string
}.

(** [new Error(message)] *)
Definition new_Error (message : string) : js_error :=
  {| err_name := "Error"; err_message := message; err_code := None |}.

(** The rejection of an [fs] call: an [Error] carrying the system's code. *)
Definition system_error (code description syscall p : string) : js_error :=
  {| err_name := "Error";
     err_message := code +:+ ": " +:+ description +:+ ", " +:+ syscall +:+ " '" +:+ p +:+ "'";
     err_code := Some code |}.

Definition ENOENT := system_error "ENOENT" "no such file or directory".
Definition EACCES := system_error "EACCES" "permission denied".
Definition EEXIST := system_error "EEXIST" "file already exists".

(** What [path.join] throws on an argument that is not a string. *)
Definition ERR_INVALID_ARG_TYPE : js_error :=
  {| err_name := "TypeError";
     err_message := "The " +:+ JS.dquote +:+ "path" +:+ JS.dquote +:+
                    " argument must be of type string. Received undefined";
     err_code := Some "ERR_INVALID_ARG_TYPE" |}.

(** What [JSON.parse] throws on a text that is not JSON. *)
Definition SyntaxError : js_error :=
  {| err_name := "SyntaxError"; err_message := "Unexpected token in JSON"; err_code := None |}.

(** What [fetch] rejects with when the host cannot be reached, and when its
    signal is aborted. *)
Definition fetch_failed : js_error :=
  {| err_name := "TypeError"; err_message := "fetch failed"; err_code := None |}.
Definition AbortError : js_error :=
  {| err_name := "AbortError"; err_message := "This operation was aborted"; err_code := None |}.

(** ** The world the server runs in *)

Inductive level := LDebug | LInfo | LWarn | LError.

(** The answer of the remote host to a request. *)
Inductive response :=
| Reply (status : nat) (statusText : string) (body : string)
| Unreachable
| NoAnswer.

Record world := mkWorld {
  files : gmap string string;        (* regular files, by path *)
  dirs : gset string;                (* directories *)
  read_denied : gset string;         (* paths whose reads are refused *)
  write_denied : gset string;        (* paths whose writes are refused *)
  remote : string -> response;       (* the remote host, by URL *)
  requests : list string;            (* the URLs fetched so far *)
  lookupCache : option ClassLookup;  (* [let lookupCache] of lookup.ts *)
  logs : list (level * string)       (* what the logger received *)
}.

Definition with_files (f : gmap string string) (w : world) : world :=
  mkWorld f (dirs w) (read_denied w) (write_denied w) (remote w) (requests w)
          (lookupCache w) (logs w).
Definition with_dirs (d : gset string) (w : world) : world :=
  mkWorld (files w) d (read_denied w) (write_denied w) (remote w) (requests w)
          (lookupCache w) (logs w).
Definition with_requests (r : list string) (w : world) : world :=
  mkWorld (files w) (dirs w) (read_denied w) (write_denied w) (remote w) r
          (lookupCache w) (logs w).
Definition with_lookupCache (c : option ClassLookup) (w : world) : world :=
  mkWorld (files w) (dirs w) (read_denied w) (write_denied w) (remote w)
          (requests w) c (logs w).
Definition with_logs (l : list (level * string)) (w : world) : world :=
  mkWorld (files w) (dirs w) (read_denied w) (write_denied w) (remote w)
          (requests w) (lookupCache w) l.

(** ** Asynchronous computations *)

Inductive outcome (A : Type) :=
| Return (a : A)
| Throw (e : js_error).
Arguments Return {A} a.
Arguments Throw {A} e.

Definition async (A : Type) : Type := world -> outcome A * world.

Definition ret {A} (a : A) : async A := fun w => (Return a, w).
Definition throw {A} (e : js_error) : async A := fun w => (Throw e, w).
Definition bind {A B} (c : async A) (k : A -> async B) : async B :=
  fun w => match c w with
           | (Return a, w') => k a w'
           | (Throw e, w') => (Throw e, w')
           end.
(** [try { c } catch (error) { h error }] *)
Definition try_catch {A} (c : async A) (h : js_error -> async A) : async A :=
  fun w => match c w with
           | (Return a, w') => (Return a, w')
           | (Throw e, w') => h e w'
           end.

Declare Scope async_scope.
Delimit Scope async_scope with async.
Notation "x <- c ;; k" := (bind c (fun x => k))
  (at level 100, c at next level, right associativity) : async_scope.
Notation "c ;; k" := (bind c (fun _ => k))
  (at level 100, right associativity) : async_scope.
Local Open Scope async_scope.

(** [logger.<level>(message, ...)] *)
Definition log (l : level) (message : string) : async unit :=
  fun w => (Return (), with_logs (logs w ++ [(l, message)]) w).

(** *** [fs/promises] *)

Definition readFile (p : string) : async string := fun w =>
  match files w !! p with
  | None => (Throw (ENOENT "open" p), w)
  | Some data =>
      if decide (p ∈ read_denied w) then (Throw (EACCES "open" p), w)
      else (Return data, w)
  end.

(** A refused write leaves the file as it was. *)
Definition writeFile (p data : string) : async unit := fun w =>
  if decide (p ∈ write_denied w) then (Throw (EACCES "open" p), w)
  else (Return (), with_files (<[p := data]> (files w)) w).

(** [fs.access(p)]: the path exists. *)
Definition access (p : string) : async unit := fun w =>
  if decide (p ∈ dirs w) then (Return (), w)
  else match files w !! p with
       | Some _ => (Return (), w)
       | None => (Throw (ENOENT "access" p), w)
       end.

(** [fs.mkdir(p, { recursive: true })] *)
Definition mkdir (p : string) : async unit := fun w =>
  if decide (p ∈ dirs w) then (Return (), w)
  else match files w !! p with
       | Some _ => (Throw (EEXIST "mkdir" p), w)
       | None =>
           if decide (p ∈ write_denied w) then (Throw (EACCES "mkdir" p), w)
           else (Return (), with_dirs ({[p]} ∪ dirs w) w)
       end.

(** ** Property access on the index object

    The index is an ordinary object: [lookup[k]] finds an own property or,
    failing that, a member of [Object.prototype]. *)

Definition Object_prototype_keys : list string :=
  [ "constructor"; "__defineGetter__"; "__defineSetter__"; "hasOwnProperty";
    "__lookupGetter__"; "__lookupSetter__"; "isPrototypeOf";
    "propertyIsEnumerable"; "toString"; "valueOf"; "__proto__";
    "toLocaleString" ].

Inductive property :=
| OwnEntry (info : ClassInfo)   (* an entry of the index *)
| Inherited                     (* a member of Object.prototype: truthy, without [path] *)
| Undefined.

Fixpoint own_property (lookup : ClassLookup) (k : string) : option ClassInfo :=
  match lookup with
  | [] => None
  | (key, value) :: rest =>
      if String.eqb key k then Some value else own_property rest k
  end.

(** [lookup[k]] *)
Definition get_property (lookup : ClassLookup) (k : string) : property :=
  match own_property lookup k with
  | Some info => OwnEntry info
  | None => if bool_decide (k ∈ Object_prototype_keys) then Inherited else Undefined
  end.

Section Server.

(** [JSON.parse] on the text of an index file: [None] when it throws. *)
Variable JSON_parse : string -> option ClassLookup.

(** The file entries (name and data) of a ZIP archive, as [new AdmZip(buffer)]
    reads them: [None] when the buffer is not an archive. *)
Variable AdmZip : string -> option (list (string * string)).

(** *** [utils/lookup.ts] *)

Definition loadLookup (lookupFile : string) : async (option ClassLookup) :=
  fun w =>
    match lookupCache w with
    | Some cached => (Return (Some cached), w)
    | None =>
        try_catch
          (data <- readFile lookupFile ;;
           match JSON_parse data with
           | None => throw SyntaxError
           | Some parsed =>
               (fun w' => (Return (), with_lookupCache (Some parsed) w')) ;;
               log LInfo "Lookup index loaded successfully" ;;
               ret (Some parsed)
           end)
          (fun error =>
             log LError "Failed to load lookup index" ;;
             ret None)
          w
    end.

Definition clearLookupCache : async unit :=
  (fun w => (Return (), with_lookupCache None w)) ;;
  log LInfo "Lookup cache cleared".

(** *** [tools/handlers.ts] *)

Definition MAX_SEARCH_RESULTS : nat := 25.

Definition result_line (info : ClassInfo) : string :=
  "- " +:+ full_name info +:+ " (" +:+ kind_text (type info) +:+ ")".

(** The [for ... of Object.entries(lookup)] loop of the search, with its two
    accumulators and its [break]. *)
Fixpoint search_loop (q : string) (entries : ClassLookup)
         (matches : list string) (seenPaths : gset string) : list string :=
  match entries with
  | [] => matches
  | (className, info) :: rest =>
      if JS.includes (JS.toLowerCase className) q
         && negb (bool_decide (path info ∈ seenPaths))
      then
        let seenPaths' := {[path info]} ∪ seenPaths in
        let matches' := matches ++ [result_line info] in
        if MAX_SEARCH_RESULTS <=? length matches' then matches'
        else search_loop q rest matches' seenPaths'
      else search_loop q rest matches seenPaths
  end.

Definition no_matches : string := "No matches found for your search query.".

Definition searchHytaleClasses (args : SearchHytaleClassesArgs)
           (lookupFile : string) : async string :=
  try_catch
    (lookup <- loadLookup lookupFile ;;
     match lookup with
     | None => throw (new_Error "Class lookup index not found")
     | Some lookup =>
         let q := JS.trim (JS.toLowerCase (query args)) in
         if JS.falsy q then throw (new_Error "Search query cannot be empty")
         else
           let matches := search_loop q lookup [] ∅ in
           let result :=
             if 0 <? length matches then JS.join JS.newline matches
             else no_matches in
           log LInfo "Class search completed" ;;
           ret result
     end)
    (fun error =>
       log LError "Class search failed" ;;
       throw error).

(** The case-insensitive scan of the read handler. *)
Fixpoint scan_loop (entries : ClassLookup) (lowerClassName : string) : property :=
  match entries with
  | [] => Undefined
  | (key, value) :: rest =>
      if String.eqb (JS.toLowerCase key) lowerClassName then OwnEntry value
      else scan_loop rest lowerClassName
  end.

Definition not_found (className : string) : js_error :=
  new_Error ("Class " +:+ JS.dquote +:+ className +:+ JS.dquote +:+
             " not found in documentation").

(** The resolution of a class name by the read handler: [lookup[className]]
    and, when that is falsy, the scan. *)
Definition resolve_class (lookup : ClassLookup) (className : string) : property :=
  let classInfo := get_property lookup className in
  match classInfo with
  | Undefined => scan_loop lookup (JS.toLowerCase className)
  | _ => classInfo
  end.

Definition readHytaleClassDocs (args : ReadHytaleClassDocsArgs)
           (lookupFile docsDir : string) : async string :=
  try_catch
    (lookup <- loadLookup lookupFile ;;
     match lookup with
     | None => throw (new_Error "Class lookup index not found")
     | Some lookup =>
         let className := JS.trim (full_class_name args) in
         if JS.falsy className then throw (new_Error "Class name cannot be empty")
         else
           let classInfo := resolve_class lookup className in
           match classInfo with
           | Undefined => throw (not_found className)
           | Inherited => throw ERR_INVALID_ARG_TYPE
           | OwnEntry info =>
               content <- readFile (Path.join docsDir (path info)) ;;
               log LInfo "Class documentation read" ;;
               ret content
           end
     end)
    (fun error =>
       log LError "Failed to read class documentation" ;;
       throw error).

(** *** [utils/download.ts] *)

Record ServerConfig := {
  docsDir : string;
  lookupFile : string;
  docsUrl : option string;
  docsDownloadTimeout : N
}.

Definition LAST_URL_FILE : string := ".last-download-url".

Definition hasUrlChanged (docsDir currentUrl : string) : async bool :=
  let lastUrlPath := Path.join docsDir LAST_URL_FILE in
  try_catch
    (lastUrl <- readFile lastUrlPath ;;
     ret (negb (String.eqb (JS.trim lastUrl) (JS.trim currentUrl))))
    (fun error =>
       log LDebug "No previous download URL found" ;;
       ret true).

Definition saveLastUrl (docsDir url : string) : async unit :=
  let lastUrlPath := Path.join docsDir LAST_URL_FILE in
  try_catch
    (writeFile lastUrlPath url ;;
     log LDebug "Saved last download URL")
    (fun error => log LWarn "Failed to save last download URL").

(** [response.ok] *)
Definition response_ok (status : nat) : bool :=
  (200 <=? status) && (status <=? 299).

(** [fetch(url, { signal })]: one request, recorded; the body on a reply,
    a rejection otherwise ([NoAnswer]: the timer aborts the request). *)
Definition fetch (url : string) : async (nat * string * string) := fun w =>
  let w' := with_requests (requests w ++ [url]) w in
  match remote w url with
  | Reply status statusText body => (Return (status, statusText, body), w')
  | Unreachable => (Throw fetch_failed, w')
  | NoAnswer => (Throw AbortError, w')
  end.

Definition downloadFile (url : string) (timeout : N) : async string :=
  log LInfo "Starting download" ;;
  try_catch
    (response <- fetch url ;;
     let '(status, statusText, body) := response in
     if negb (response_ok status)
     then throw (new_Error ("HTTP " +:+ pretty status +:+ ": " +:+ statusText))
     else ret body)
    (fun error =>
       if String.eqb (err_name error) "AbortError"
       then throw (new_Error ("Download timeout after " +:+ pretty timeout +:+ "ms"))
       else throw error).

(** [zip.extractAllTo(destDir, true)]: every entry written below [destDir],
    at the path its sanitised name gives, in archive order and over what is
    there; the first refused write throws. *)
Fixpoint extractAllTo (entries : list (string * string)) (destDir : string)
  : async unit :=
  match entries with
  | [] => ret ()
  | (entryName, data) :: rest =>
      writeFile (entry_path destDir entryName) data ;;
      extractAllTo rest destDir
  end.

Definition INVALID_FORMAT : js_error :=
  new_Error "Invalid or unsupported zip format. No END header found".

Definition extractZip (buffer destDir : string) : async unit :=
  log LInfo "Extracting ZIP archive" ;;
  try_catch
    (mkdir destDir ;;
     match AdmZip buffer with
     | None => throw INVALID_FORMAT
     | Some zip =>
         extractAllTo zip destDir ;;
         log LDebug "ZIP extraction completed"
     end)
    (fun error =>
       log LError "ZIP extraction failed" ;;
       throw (new_Error ("Failed to extract ZIP: " +:+ err_message error))).

Definition validateDocsDirectory (docsDir : string) : async bool :=
  try_catch
    (access docsDir ;;
     let lookupFile := Path.join docsDir "class_lookup.json" in
     access lookupFile ;;
     log LDebug "Documentation directory validation passed" ;;
     ret true)
    (fun error =>
       log LDebug "Documentation directory validation failed" ;;
       ret false).

Definition downloadAndExtractDocs (config : ServerConfig) : async unit :=
  match docsUrl config with
  | None => log LDebug "No DOCS_URL provided, skipping download"
  | Some url =>
      if JS.falsy url then log LDebug "No DOCS_URL provided, skipping download"
      else
        log LInfo "Checking documentation download status" ;;
        urlChanged <- hasUrlChanged (docsDir config) url ;;
        if negb urlChanged then log LInfo "Skipping download, URL unchanged"
        else
          log LInfo "URL changed, downloading new documentation" ;;
          try_catch
            (zipBuffer <- downloadFile url (docsDownloadTimeout config) ;;
             log LInfo "Documentation downloaded successfully" ;;
             extractZip zipBuffer (docsDir config) ;;
             log LInfo "Documentation extracted successfully" ;;
             isValid <- validateDocsDirectory (docsDir config) ;;
             (if negb isValid
              then throw (new_Error "Extracted documentation is missing class_lookup.json")
              else ret ()) ;;
             saveLastUrl (docsDir config) url ;;
             log LInfo "Documentation download completed successfully")
            (fun error =>
               log LError "Failed to download and extract documentation" ;;
               throw error)
  end.

End Server.


(** ** The tool execution handler ([index.ts]) *)

(** The arguments of a tool call as they arrive: an object on which the
    property a handler reads may be missing. A property that is there is
    taken to be a string, as the casts of the handler have it. *)
Record tool_arguments := {
  arg_query : option string;
  arg_full_class_name : option string
}.

Record CallToolRequest := {
  tool_name : string;
  tool_arguments_of : tool_arguments
}.

(** The result of a tool call: one text item, and the [isError] mark (absent
    on success). *)
Record CallToolResult := {
  result_text : string;
  isError : bool
}.

(** What reading a property of [undefined] throws. *)
Definition cannot_read_property (member : string) : js_error :=
  {| err_name := "TypeError";
     err_message := "Cannot read properties of undefined (reading '" +:+ member +:+ "')";
     err_code := None |}.

Section ToolCalls.

Variable JSON_parse : string -> option ClassLookup.

(** [searchHytaleClasses(args, lookupFile)] on arguments whose [query] may be
    missing: the index is loaded first, and [args.query.toLowerCase()] then
    throws inside the [try] of the handler. *)
Definition searchHytaleClasses_call (args : tool_arguments) (lookupFile : string)
  : async string :=
  match arg_query args with
  | Some q => searchHytaleClasses JSON_parse {| query := q |} lookupFile
  | None =>
      try_catch
        (lookup <- loadLookup JSON_parse lookupFile ;;
         match lookup with
         | None => throw (new_Error "Class lookup index not found")
         | Some _ => throw (cannot_read_property "toLowerCase")
         end)
        (fun error =>
           log LError "Class search failed" ;;
           throw error)
  end.

(** [readHytaleClassDocs(args, lookupFile, docsDir)] on arguments whose
    [full_class_name] may be missing. *)
Definition readHytaleClassDocs_call (args : tool_arguments)
           (lookupFile docsDir : string) : async string :=
  match arg_full_class_name args with
  | Some n => readHytaleClassDocs JSON_parse {| full_class_name := n |} lookupFile docsDir
  | None =>
      try_catch
        (lookup <- loadLookup JSON_parse lookupFile ;;
         match lookup with
         | None => throw (new_Error "Class lookup index not found")
         | Some _ => throw (cannot_read_property "trim")
         end)
        (fun error =>
           log LError "Failed to read class documentation" ;;
           throw error)
  end.

(** The handler registered for [CallToolRequestSchema]. *)
Definition callTool (config : ServerConfig) (request : CallToolRequest)
  : async CallToolResult :=
  let name := tool_name request in
  let args := tool_arguments_of request in
  try_catch
    (content <-
       (if String.eqb name "search_hydocs_classes" then
          searchHytaleClasses_call args (lookupFile config)
        else if String.eqb name "read_hydocs_class_docs" then
          readHytaleClassDocs_call args (lookupFile config) (docsDir config)
        else throw (new_Error ("Unknown tool: " +:+ name))) ;;
     ret {| result_text := content; isError := false |})
    (fun error =>
       ret {| result_text := "Error: " +:+ err_message error; isError := true |}).

End ToolCalls.
(** * Specification-side definitions

    What the claims speak of, worded as the specification words it, to be
    compared with the embedding of the code. *)

(** ** Search *)

(** The entries of the index whose name contains the folded query. *)
Definition matches_query (q : string) (e : string * ClassInfo) : bool :=
  JS.includes (JS.toLowerCase (fst e)) q.

(** One entry per path, the first encountered: an entry is dropped when an
    earlier one (their paths are in [earlier]) has its path. *)
Fixpoint first_per_path (earlier : list string) (l : ClassLookup) : ClassLookup :=
  match l with
  | [] => []
  | e :: rest =>
      if bool_decide (path (snd e) ∈ earlier)
      then first_per_path (path (snd e) :: earlier) rest
      else e :: first_per_path (path (snd e) :: earlier) rest
  end.

(** The search as the specification words it: match, deduplicate by path,
    cap. *)
Definition search_hits (q : string) (lookup : ClassLookup) : ClassLookup :=
  take MAX_SEARCH_RESULTS (first_per_path [] (List.filter (matches_query q) lookup)).

Definition render_hits (hits : ClassLookup) : string :=
  match hits with
  | [] => no_matches
  | _ => JS.join JS.newline (map (fun e => result_line (snd e)) hits)
  end.

(** ** The lookup cache *)

(** What a load from disk yields in a given state of the file system. *)
Definition read_index (JSON_parse : string -> option ClassLookup)
           (lookupFile : string) (w : world) : option ClassLookup :=
  match fst (readFile lookupFile w) with
  | Return data => JSON_parse data
  | Throw _ => None
  end.


(** ** Name resolution *)

(** Resolution as the specification words it: the entry under the exact key
    and, when there is none, the first entry in iteration order whose key
    equals the name under case folding. *)
Definition resolve_spec (lookup : ClassLookup) (name : string) : option ClassInfo :=
  match List.find (fun e => String.eqb (fst e) name) lookup with
  | Some e => Some (snd e)
  | None =>
      match List.find (fun e => String.eqb (JS.toLowerCase (fst e)) (JS.toLowerCase name))
                      lookup with
      | Some e => Some (snd e)
      | None => None
      end
  end.

(** ** Reasoning about asynchronous computations *)

(** [wp c w Q]: run from [w], the computation [c] ends with an outcome and in
    a state that [Q] accepts. *)
Definition wp {A} (c : async A) (w : world) (Q : outcome A -> world -> Prop) : Prop :=
  Q (fst (c w)) (snd (c w)).

(** ** Provisioning *)

(** The file of a store that holds the identifier, and its index file. *)
Definition id_path (dir : string) : string := Path.join dir LAST_URL_FILE.
Definition index_path (dir : string) : string := Path.join dir "class_lookup.json".

(** The files of a store after the entries [zip] were written below [dir],
    in order, each over what was there. *)
Definition extracted (dir : string) (zip : list (string * string))
           (f : gmap string string) : gmap string string :=
  fold_left (fun f e => <[entry_path dir (fst e) := snd e]> f) zip f.

(** How many entries of [zip] are written before the first refused write. *)
Fixpoint written (denied : gset string) (dir : string) (zip : list (string * string)) : nat :=
  match zip with
  | [] => 0
  | e :: rest =>
      if decide (entry_path dir (fst e) ∈ denied) then 0
      else S (written denied dir rest)
  end.

(** The identifier on disk differs from [url], or cannot be read. *)
Definition url_changed (dir url : string) (w : world) : bool :=
  match fst (readFile (id_path dir) w) with
  | Return stored => negb (String.eqb (JS.trim stored) (JS.trim url))
  | Throw _ => true
  end.

(** What a download ends with, by the answer of the remote host. *)
Definition download_outcome (timeout : N) (r : response) : outcome string :=
  match r with
  | Reply status statusText body =>
      if response_ok status then Return body
      else Throw (new_Error ("HTTP " +:+ pretty status +:+ ": " +:+ statusText))
  | Unreachable => Throw fetch_failed
  | NoAnswer => Throw (new_Error ("Download timeout after " +:+ pretty timeout +:+ "ms"))
  end.

(** The error [extractZip] throws for a failure [e] of the extraction. *)
Definition extraction_failed (e : js_error) : js_error :=
  new_Error ("Failed to extract ZIP: " +:+ err_message e).

Definition invalid_bundle : js_error :=
  new_Error "Extracted documentation is missing class_lookup.json".

(** A path exists: it is a directory or a file. *)
Definition exists_at (w : world) (p : string) : bool :=
  bool_decide (p ∈ dirs w) || bool_decide (is_Some (files w !! p)).

(** The state of the store after [saveLastUrl]: the identifier is written
    unless the write is refused. *)
Definition saved (dir url : string) (w : world) : world :=
  if decide (id_path dir ∈ write_denied w) then w
  else with_files (<[id_path dir := url]> (files w)) w.

(** A failed run: the error [e] is thrown to the caller, after an entry in
    the error log; apart from the log the world is [base]. *)
Definition failed_with (e : js_error) (base : world)
           (o : outcome unit) (w' : world) : Prop :=
  o = Throw e
  /\ exists l, w' = with_logs l base
     /\ (LError, "Failed to download and extract documentation") ∈ l.

(** A whole provisioning run in closed form: what
    [downloadAndExtractDocs] ends with ([o], [w']) when started in [w] with
    the non-empty identifier [url], case by case along its steps. *)
Definition run_summary (AdmZip : string -> option (list (string * string)))
           (cfg : ServerConfig) (url : string) (w : world)
           (o : outcome unit) (w' : world) : Prop :=
  let dir := docsDir cfg in
  if negb (url_changed dir url w) then
    o = Return () /\ exists l, w' = with_logs l w
  else
    let w1 := with_requests (requests w ++ [url]) w in
    match download_outcome (docsDownloadTimeout cfg) (remote w url) with
    | Throw e => failed_with e w1 o w'
    | Return body =>
        match fst (mkdir dir w1) with
        | Throw e => failed_with (extraction_failed e) w1 o w'
        | Return _ =>
            let w2 := snd (mkdir dir w1) in
            match AdmZip body with
            | None => failed_with (extraction_failed INVALID_FORMAT) w2 o w'
            | Some zip =>
                let k := written (write_denied w) dir zip in
                let w3 := with_files (extracted dir (take k zip) (files w)) w2 in
                match drop k zip with
                | e :: _ =>
                    failed_with
                      (extraction_failed (EACCES "open" (entry_path dir (fst e))))
                      w3 o w'
                | [] =>
                    if exists_at w3 dir && exists_at w3 (index_path dir) then
                      o = Return ()
                      /\ exists l, w' = with_logs l (saved dir url w3)
                         /\ (id_path dir ∈ write_denied w ->
                             (LWarn, "Failed to save last download URL") ∈ l)
                    else failed_with invalid_bundle w3 o w'
                end
            end
        end
    end.

(** ** The claims on provisioning, as stated *)

(** Stale fallback: a failed fetch, with a valid bundle on disk, ends the
    run normally. *)
Definition stale_fallback (AdmZip : string -> option (list (string * string))) : Prop :=
  forall (cfg : ServerConfig) (url : string) (w : world) (e : js_error),
    docsUrl cfg = Some url -> url <> "" ->
    fst (hasUrlChanged (docsDir cfg) url w) = Return true ->
    fst (downloadFile url (docsDownloadTimeout cfg) w) = Throw e ->
    fst (validateDocsDirectory (docsDir cfg) w) = Return true ->
    fst (downloadAndExtractDocs AdmZip cfg w) = Return ().

(** Atomic extraction: after a run, the store shows either every entry of
    the downloaded archive at its path, or none of the changes (the paths
    of the archive hold what they held). *)
Definition extraction_is_atomic (AdmZip : string -> option (list (string * string))) : Prop :=
  forall (cfg : ServerConfig) (url : string) (w : world)
         (status : nat) (statusText body : string) (zip : list (string * string)),
    docsUrl cfg = Some url ->
    remote w url = Reply status statusText body ->
    AdmZip body = Some zip ->
    let store := files (snd (downloadAndExtractDocs AdmZip cfg w)) in
    (forall e, e ∈ zip -> store !! entry_path (docsDir cfg) (fst e) = Some (snd e))
    \/ (forall e, e ∈ zip ->
          store !! entry_path (docsDir cfg) (fst e)
          = files w !! entry_path (docsDir cfg) (fst e)).

(** The store holds the bundle that the identifier [id] names: every entry
    of the archive served under [id] is on disk with its data. *)
Definition materialised (AdmZip : string -> option (list (string * string)))
           (dir : string) (w : world) (id : string) : Prop :=
  exists status statusText body zip,
    remote w id = Reply status statusText body
    /\ AdmZip body = Some zip
    /\ forall e, e ∈ zip -> files w !! entry_path dir (fst e) = Some (snd e).

(** The stored identifier always reflects the bundle in the store: every
    run keeps this so. *)
Definition identifier_reflects_store
           (AdmZip : string -> option (list (string * string))) : Prop :=
  forall (cfg : ServerConfig) (w : world),
    (forall id, files w !! id_path (docsDir cfg) = Some id ->
                materialised AdmZip (docsDir cfg) w id) ->
    let w' := snd (downloadAndExtractDocs AdmZip cfg w) in
    forall id, files w' !! id_path (docsDir cfg) = Some id ->
               materialised AdmZip (docsDir cfg) w' id.

(** Validation establishes that the file of every entry of an accepted
    bundle is there and readable at the end of the run. *)
Definition accepted_bundle_has_every_body
           (AdmZip : string -> option (list (string * string)))
           (JSON_parse : string -> option ClassLookup) : Prop :=
  forall (cfg : ServerConfig) (url : string) (w : world),
    docsUrl cfg = Some url -> url <> "" ->
    fst (hasUrlChanged (docsDir cfg) url w) = Return true ->
    fst (downloadAndExtractDocs AdmZip cfg w) = Return () ->
    let w' := snd (downloadAndExtractDocs AdmZip cfg w) in
    forall lookup key info,
      read_index JSON_parse (index_path (docsDir cfg)) w' = Some lookup ->
      (key, info) ∈ lookup ->
      exists body, fst (readFile (Path.join (docsDir cfg) (path info)) w') = Return body.

(** ** A small deployment, for concrete runs *)

Definition ex_docsDir : string := "/docs".
Definition ex_lookupFile : string := "/docs/class_lookup.json".

Definition ex_lookup : ClassLookup :=
  [ ("a.Foo", mkClassInfo "a.Foo" "f1" KClass "a");
    ("a.Bar", mkClassInfo "a.Bar" "f2" KClass "a");
    ("a.Baz", mkClassInfo "a.Baz" "f1" KInterface "a") ].

Definition ex_lookup_v2 : ClassLookup :=
  [ ("b.Qux", mkClassInfo "b.Qux" "g1" KEnum "b") ].

(** The example index texts: [index-1] and [index-2] stand for the JSON
    texts of [ex_lookup] and [ex_lookup_v2]; any other text is not JSON. *)
Definition ex_JSON_parse (text : string) : option ClassLookup :=
  if String.eqb text "index-1" then Some ex_lookup
  else if String.eqb text "index-2" then Some ex_lookup_v2
  else None.

(** The store of bundle [v1], provisioned and not yet loaded. *)
Definition ex_files : gmap string string :=
  {[ "/docs/class_lookup.json" := "index-1";
     "/docs/f1" := "Foo body";
     "/docs/f2" := "Bar body";
     "/docs/.last-download-url" := "https://host/v1.zip" ]}.

Definition ex_world : world :=
  {| files := ex_files; dirs := {[ "/docs" ]};
     read_denied := ∅; write_denied := ∅;
     remote := fun _ => Unreachable; requests := [];
     lookupCache := None; logs := [] |}.

(** An index with a class called [Constructor], and its store. *)
Definition ex_lookup_ctor : ClassLookup :=
  [ ("Constructor", mkClassInfo "Constructor" "c.md" KClass "") ].

Definition ex_world_ctor : world :=
  {| files := {[ "/docs/c.md" := "Constructor body" ]}; dirs := {[ "/docs" ]};
     read_denied := ∅; write_denied := ∅;
     remote := fun _ => Unreachable; requests := [];
     lookupCache := Some ex_lookup_ctor; logs := [] |}.

(** The claim that a failed load is permanent: after a load that failed, every
    later load fails too, whatever the index file has become. *)
Definition failed_load_is_permanent (JSON_parse : string -> option ClassLookup) : Prop :=
  forall (lookupFile : string) (w : world),
    fst (loadLookup JSON_parse lookupFile w) = Return None ->
    forall later : gmap string string,
      fst (loadLookup JSON_parse lookupFile
             (with_files later (snd (loadLookup JSON_parse lookupFile w))))
      = Return None.

(** The claim that a lost body has an error kind of its own: a name that
    resolves to an entry whose file is missing or unreadable makes Retrieve
    fail with an error whose kind differs from the kind of the error for an
    unknown name. The kind of a JavaScript error is its class, which its
    [name] tells. *)
Definition missing_body_has_its_own_kind
           (JSON_parse : string -> option ClassLookup) : Prop :=
  forall (args : ReadHytaleClassDocsArgs) (lookupFile docsDir : string)
         (w : world) (lookup : ClassLookup) (info : ClassInfo),
    fst (loadLookup JSON_parse lookupFile w) = Return (Some lookup) ->
    JS.trim (full_class_name args) <> "" ->
    resolve_spec lookup (JS.trim (full_class_name args)) = Some info ->
    files w !! Path.join docsDir (path info) = None
    \/ Path.join docsDir (path info) ∈ read_denied w ->
    exists e,
      fst (readHytaleClassDocs JSON_parse args lookupFile docsDir w) = Throw e
      /\ forall name, err_name e <> err_name (not_found name).

(** The remote host: four archives, by URL. The buffers [zip-1] to [zip-4]
    stand for the archives [ex_AdmZip] reads out of them. *)
Definition ex_remote (url : string) : response :=
  if String.eqb url "https://host/v1.zip" then Reply 200 "OK" "zip-1"
  else if String.eqb url "https://host/v2.zip" then Reply 200 "OK" "zip-2"
  else if String.eqb url "https://host/v3.zip" then Reply 200 "OK" "zip-3"
  else if String.eqb url "https://host/v4.zip" then Reply 200 "OK" "zip-4"
  else Reply 404 "Not Found" "".

Definition ex_AdmZip (buffer : string) : option (list (string * string)) :=
  if String.eqb buffer "zip-1" then
    Some [ ("class_lookup.json", "index-1"); ("f1", "Foo body"); ("f2", "Bar body") ]
  else if String.eqb buffer "zip-2" then
    Some [ ("class_lookup.json", "index-2"); ("g1", "Qux body") ]
  else if String.eqb buffer "zip-3" then
    Some [ ("class_lookup.json", "index-2") ]
  else if String.eqb buffer "zip-4" then
    Some [ (".last-download-url", "https://host/v4.zip") ]
  else None.

Definition ex_config (url : string) : ServerConfig :=
  {| docsDir := ex_docsDir; lookupFile := ex_lookupFile;
     docsUrl := Some url; docsDownloadTimeout := 300000%N |}.

(** The deployment of [ex_world] with the remote host up, and variants in
    which some writes are refused. *)
Definition ex_online (denied : gset string) : world :=
  {| files := ex_files; dirs := {[ "/docs" ]};
     read_denied := ∅; write_denied := denied;
     remote := ex_remote; requests := [];
     lookupCache := None; logs := [] |}.

(** An index of a hundred classes [c0] to [c99], each with a body of its
    own. *)
Definition ex_lookup_100 : ClassLookup :=
  map (fun n : nat => ("pkg.c" +:+ pretty n,
                       mkClassInfo ("pkg.c" +:+ pretty n) ("c" +:+ pretty n) KClass "pkg"))
      (seq 0 100).

(** ** Tool calls *)

(** What the handler of a tool call makes of the outcome of a tool. *)
Definition tool_result (o : outcome string) : CallToolResult :=
  match o with
  | Return content => {| result_text := content; isError := false |}
  | Throw e => {| result_text := "Error: " +:+ err_message e; isError := true |}
  end.

(** * Properties *)

(** ** String primitives *)

Lemma is_empty_true s : JS.is_empty s = true <-> s = "".
Proof. destruct s; simpl; split; congruence. Qed.

Lemma is_empty_false s : JS.is_empty s = false <-> s <> "".
Proof. destruct s; simpl; split; congruence. Qed.

Lemma is_space_toLowerCase_char c :
  JS.is_space (JS.toLowerCase_char c) = JS.is_space c.
Proof. destruct c as [[] [] [] [] [] [] [] []]; reflexivity. Qed.

Lemma is_empty_toLowerCase s : JS.is_empty (JS.toLowerCase s) = JS.is_empty s.
Proof. destruct s; reflexivity. Qed.

Lemma trimStart_toLowerCase s :
  JS.trimStart (JS.toLowerCase s) = JS.toLowerCase (JS.trimStart s).
Proof.
  induction s as [|c r IH]; simpl; [reflexivity|].
  rewrite is_space_toLowerCase_char. destruct (JS.is_space c); auto.
Qed.

Lemma trimEnd_toLowerCase s :
  JS.trimEnd (JS.toLowerCase s) = JS.toLowerCase (JS.trimEnd s).
Proof.
  induction s as [|c r IH]; simpl; [reflexivity|].
  rewrite is_space_toLowerCase_char, IH, is_empty_toLowerCase.
  destruct (JS.is_space c && JS.is_empty (JS.trimEnd r)); reflexivity.
Qed.

(** Trimming and case folding commute: the order the handler applies them in
    does not matter. *)
Lemma trim_toLowerCase s :
  JS.trim (JS.toLowerCase s) = JS.toLowerCase (JS.trim s).
Proof.
  unfold JS.trim. now rewrite trimStart_toLowerCase, trimEnd_toLowerCase.
Qed.

Lemma startsWith_spec s p :
  JS.startsWith s p = true <-> exists post, s = p +:+ post.
Proof.
  revert s; induction p as [|a p IH]; intros s; simpl.
  - split; [intros _; now exists s | intros _; now destruct s].
  - destruct s as [|b s]; simpl.
    + split; [discriminate | intros [post H]; discriminate].
    + rewrite andb_true_iff, Ascii.eqb_eq, IH. split.
      * intros [-> [post ->]]. now exists post.
      * intros [post H]. injection H as -> ->. split; [reflexivity | now exists post].
Qed.

(** [includes] is the substring test. *)
Lemma includes_spec s q :
  JS.includes s q = true <-> exists pre post, s = pre +:+ q +:+ post.
Proof.
  induction s as [|c r IH].
  - cbn [JS.includes]. rewrite orb_false_r, startsWith_spec. split.
    + intros [post H]. now exists "", post.
    + intros [pre [post H]]. destruct pre; [now exists post | discriminate].
  - cbn [JS.includes]. rewrite orb_true_iff, startsWith_spec, IH. split.
    + intros [[post H] | [pre [post H]]].
      * now exists "", post.
      * exists (String c pre), post. simpl. now rewrite H.
    + intros [pre [post H]]. destruct pre as [|c' pre].
      * left. now exists post.
      * right. injection H as _ ->. now exists pre, post.
Qed.

(** ** The search loop *)

(** [first_per_path] keeps the order of the index. *)
Lemma first_per_path_sublist l : forall earlier, sublist (first_per_path earlier l) l.
Proof.
  induction l as [|e rest IH]; intros earlier; cbn [first_per_path]; [constructor|].
  destruct (bool_decide (path (snd e) ∈ earlier)).
  - apply sublist_cons. apply IH.
  - apply sublist_skip. apply IH.
Qed.

(** [first_per_path] keeps an entry exactly when no entry before it has its
    path. *)
Lemma first_per_path_lookup l :
  forall earlier i e,
    l !! i = Some e ->
    (forall j e', j < i -> l !! j = Some e' -> path (snd e') <> path (snd e)) ->
    path (snd e) ∉ earlier ->
    e ∈ first_per_path earlier l.
Proof.
  induction l as [|x rest IH]; intros earlier i e Hi Hfirst Hnew; [discriminate Hi|].
  cbn [first_per_path]. destruct i as [|i].
  - injection Hi as ->. rewrite bool_decide_eq_false_2 by assumption.
    apply elem_of_cons. now left.
  - assert (e ∈ first_per_path (path (snd x) :: earlier) rest) as Hin.
    { apply (IH _ i); [exact Hi| |].
      - intros j e' Hj He'. apply (Hfirst (S j)); [lia | exact He'].
      - intros Hin. apply elem_of_cons in Hin as [Heq|Hin]; [|contradiction].
        apply (Hfirst 0 x); [lia | reflexivity | now symmetry]. }
    destruct (bool_decide (path (snd x) ∈ earlier)); [exact Hin|].
    apply elem_of_cons. now right.
Qed.

Lemma first_per_path_paths l :
  forall earlier e,
    e ∈ first_per_path earlier l -> path (snd e) ∉ earlier.
Proof.
  induction l as [|x rest IH]; intros earlier e He; cbn [first_per_path] in He.
  - now apply elem_of_nil in He.
  - destruct (bool_decide (path (snd x) ∈ earlier)) eqn:Hx.
    + apply IH in He. intros Hin. apply He. apply elem_of_cons. now right.
    + apply bool_decide_eq_false in Hx.
      apply elem_of_cons in He as [-> | He]; [exact Hx|].
      apply IH in He. intros Hin. apply He. apply elem_of_cons. now right.
Qed.

(** No two kept entries share a path. *)
Lemma first_per_path_NoDup l :
  forall earlier, NoDup (map (fun e => path (snd e)) (first_per_path earlier l)).
Proof.
  induction l as [|x rest IH]; intros earlier; cbn [first_per_path]; [constructor|].
  destruct (bool_decide (path (snd x) ∈ earlier)); [apply IH|].
  cbn [map]. constructor; [|apply IH].
  intros Hin. apply list_elem_of_fmap in Hin as (e & Heq & He).
  apply first_per_path_paths in He. apply He. rewrite Heq.
  apply elem_of_cons. now left.
Qed.

(** The loop computes the search of the specification. *)
Lemma search_loop_refines q entries :
  forall matches seenPaths earlier,
    length matches < MAX_SEARCH_RESULTS ->
    (forall p, p ∈ seenPaths <-> p ∈ earlier) ->
    search_loop q entries matches seenPaths =
    matches ++ map (fun e => result_line (snd e))
      (take (MAX_SEARCH_RESULTS - length matches)
            (first_per_path earlier (List.filter (matches_query q) entries))).
Proof.
  induction entries as [|[className info] rest IH]; intros matches seen earlier Hlen Hseen.
  - simpl. rewrite take_nil. simpl. now rewrite app_nil_r.
  - cbn [search_loop List.filter]. unfold matches_query at 1. cbn [fst].
    destruct (JS.includes (JS.toLowerCase className) q) eqn:Hinc; cbn [andb].
    + cbn [first_per_path snd].
      destruct (bool_decide (path info ∈ seen)) eqn:Hin; cbn [negb].
      * apply bool_decide_eq_true in Hin.
        rewrite bool_decide_eq_true_2 by (now apply Hseen).
        apply IH; [assumption|].
        intros p. rewrite elem_of_cons, <- Hseen. split; [auto|].
        intros [->|]; assumption.
      * apply bool_decide_eq_false in Hin.
        rewrite bool_decide_eq_false_2 by (now rewrite <- Hseen).
        rewrite length_app. cbn [length].
        destruct (MAX_SEARCH_RESULTS <=? length matches + 1) eqn:Hcap.
        -- apply Nat.leb_le in Hcap.
           replace (MAX_SEARCH_RESULTS - length matches) with 1 by lia.
           reflexivity.
        -- apply Nat.leb_gt in Hcap.
           rewrite (IH _ _ (path info :: earlier)).
           ++ rewrite length_app. cbn [length].
              replace (MAX_SEARCH_RESULTS - length matches)
                with (S (MAX_SEARCH_RESULTS - (length matches + 1))) by lia.
              cbn [take map]. now rewrite <- app_assoc.
           ++ rewrite length_app. cbn [length]. lia.
           ++ intros p. rewrite elem_of_union, elem_of_singleton, elem_of_cons, Hseen.
              reflexivity.
    + now apply IH.
Qed.

Lemma search_loop_hits q lookup :
  search_loop q lookup [] ∅ = map (fun e => result_line (snd e)) (search_hits q lookup).
Proof.
  rewrite (search_loop_refines q lookup [] ∅ []).
  - reflexivity.
  - unfold MAX_SEARCH_RESULTS. simpl. lia.
  - intros p. rewrite elem_of_nil. set_solver.
Qed.

(** ** Loading the index *)

Section LookupFacts.

Variable JSON_parse : string -> option ClassLookup.

Lemma loadLookup_cached lookupFile w cached :
  lookupCache w = Some cached ->
  loadLookup JSON_parse lookupFile w = (Return (Some cached), w).
Proof. intros H. unfold loadLookup. now rewrite H. Qed.

(** With an empty cache the loader reads the disk, whatever happened
    before; only a successful load fills the cache. *)
Lemma loadLookup_fresh lookupFile w :
  lookupCache w = None ->
  fst (loadLookup JSON_parse lookupFile w) = Return (read_index JSON_parse lookupFile w)
  /\ lookupCache (snd (loadLookup JSON_parse lookupFile w))
     = read_index JSON_parse lookupFile w.
Proof.
  intros H. unfold loadLookup, read_index. rewrite H.
  unfold try_catch, bind, readFile.
  destruct (files w !! lookupFile) as [data|]; simpl; [|now rewrite H].
  destruct (decide (lookupFile ∈ read_denied w)); simpl; [now rewrite H|].
  destruct (JSON_parse data); simpl; [auto | now rewrite H].
Qed.

(** The loader touches nothing but the cache and the log. *)
Lemma loadLookup_store lookupFile w :
  let w' := snd (loadLookup JSON_parse lookupFile w) in
  files w' = files w /\ dirs w' = dirs w /\ read_denied w' = read_denied w
  /\ write_denied w' = write_denied w /\ requests w' = requests w.
Proof.
  unfold loadLookup, try_catch, bind, readFile.
  destruct (lookupCache w); simpl; [auto 6|].
  destruct (files w !! lookupFile) as [data|]; simpl; [|auto 6].
  destruct (decide (lookupFile ∈ read_denied w)); simpl; [auto 6|].
  destruct (JSON_parse data); simpl; auto 6.
Qed.

Lemma readFile_store_only p w w' :
  files w' = files w -> read_denied w' = read_denied w ->
  fst (readFile p w') = fst (readFile p w).
Proof. intros Hf Hr. unfold readFile. rewrite Hf, Hr. repeat case_match; reflexivity. Qed.

Lemma readFile_throws p w e :
  fst (readFile p w) = Throw e ->
  (files w !! p = None /\ e = ENOENT "open" p)
  \/ (p ∈ read_denied w /\ e = EACCES "open" p).
Proof.
  unfold readFile. destruct (files w !! p); simpl.
  - destruct (decide (p ∈ read_denied w)); simpl; [|discriminate].
    intros [= <-]. now right.
  - intros [= <-]. now left.
Qed.

End LookupFacts.

(** Closed statements about concrete runs are settled by evaluation. *)
Ltac by_evaluation :=
  cbv zeta;
  repeat (lazymatch goal with |- _ /\ _ => split end);
  vm_compute; reflexivity.

(** ** The search handler *)

Lemma render_hits_code hits :
  (let matches := map (fun e : string * ClassInfo => result_line (snd e)) hits in
   if 0 <? length matches then JS.join JS.newline matches else no_matches)
  = render_hits hits.
Proof. destruct hits; reflexivity. Qed.

Lemma search_hits_capped q lookup : length (search_hits q lookup) <= MAX_SEARCH_RESULTS.
Proof. unfold search_hits. rewrite length_take. lia. Qed.



(** ** Retrieve *)

Lemma own_property_find lookup k :
  own_property lookup k
  = match List.find (fun e => String.eqb (fst e) k) lookup with
    | Some e => Some (snd e)
    | None => None
    end.
Proof.
  induction lookup as [|[key value] rest IH]; simpl; [reflexivity|].
  destruct (String.eqb key k); [reflexivity | exact IH].
Qed.

Lemma scan_loop_find lookup lower :
  scan_loop lookup lower
  = match List.find (fun e => String.eqb (JS.toLowerCase (fst e)) lower) lookup with
    | Some e => OwnEntry (snd e)
    | None => Undefined
    end.
Proof.
  induction lookup as [|[key value] rest IH]; simpl; [reflexivity|].
  destruct (String.eqb (JS.toLowerCase key) lower); [reflexivity | exact IH].
Qed.

(** Away from the names of [Object.prototype], the handler resolves a name
    as the specification words it. *)
Lemma resolve_class_spec lookup name :
  name ∉ Object_prototype_keys ->
  resolve_class lookup name
  = match resolve_spec lookup name with
    | Some info => OwnEntry info
    | None => Undefined
    end.
Proof.
  intros Hname. unfold resolve_class, get_property, resolve_spec.
  rewrite own_property_find, scan_loop_find.
  destruct (List.find (fun e => String.eqb (fst e) name) lookup); [reflexivity|].
  rewrite bool_decide_eq_false_2 by assumption.
  destruct (List.find _ lookup); reflexivity.
Qed.

(** An own key always wins, inherited or not. *)
Lemma resolve_class_own lookup name info :
  own_property lookup name = Some info ->
  resolve_class lookup name = OwnEntry info.
Proof. intros H. unfold resolve_class, get_property. now rewrite H. Qed.

(** The outcome of the read handler, by the resolution of the name. *)
Lemma readHytaleClassDocs_outcome JSON_parse args lookupFile docsDir w lookup :
  fst (loadLookup JSON_parse lookupFile w) = Return (Some lookup) ->
  JS.trim (full_class_name args) <> "" ->
  fst (readHytaleClassDocs JSON_parse args lookupFile docsDir w)
  = match resolve_class lookup (JS.trim (full_class_name args)) with
    | OwnEntry info => fst (readFile (Path.join docsDir (path info)) w)
    | Inherited => Throw ERR_INVALID_ARG_TYPE
    | Undefined => Throw (not_found (JS.trim (full_class_name args)))
    end.
Proof.
  intros Hload Hname.
  pose proof (loadLookup_store JSON_parse lookupFile w) as (Hf & _ & Hr & _).
  unfold readHytaleClassDocs, try_catch, bind.
  destruct (loadLookup JSON_parse lookupFile w) as [r w1].
  simpl in Hload, Hf, Hr. subst r.
  apply is_empty_false in Hname. unfold JS.falsy. rewrite Hname.
  destruct (resolve_class lookup (JS.trim (full_class_name args))) as [info| |];
    [|reflexivity|reflexivity].
  rewrite <- (readFile_store_only (Path.join docsDir (path info)) w w1 Hf Hr).
  destruct (readFile (Path.join docsDir (path info)) w1) as [[content|e] w2];
    reflexivity.
Qed.

(** Retrieve, for a name that is no member of [Object.prototype]: the exact
    key first, then the first key equal under case folding; the body of the
    file at the entry's path is returned as it is read. *)
Theorem read_resolves_exact_then_folded
        (JSON_parse : string -> option ClassLookup)
        (args : ReadHytaleClassDocsArgs) (lookupFile docsDir : string)
        (w : world) (lookup : ClassLookup) :
  fst (loadLookup JSON_parse lookupFile w) = Return (Some lookup) ->
  JS.trim (full_class_name args) <> "" ->
  JS.trim (full_class_name args) ∉ Object_prototype_keys ->
  fst (readHytaleClassDocs JSON_parse args lookupFile docsDir w)
  = match resolve_spec lookup (JS.trim (full_class_name args)) with
    | Some info => fst (readFile (Path.join docsDir (path info)) w)
    | None => Throw (not_found (JS.trim (full_class_name args)))
    end.
Proof.
  intros Hload Hname Hproto.
  rewrite (readHytaleClassDocs_outcome _ _ _ _ _ lookup Hload Hname).
  rewrite resolve_class_spec by assumption.
  destruct (resolve_spec lookup (JS.trim (full_class_name args))); reflexivity.
Qed.

Lemma read_resolves_exact_then_folded_witness :
  fst (readHytaleClassDocs ex_JSON_parse {| full_class_name := " A.FOO " |}
         ex_lookupFile ex_docsDir ex_world)
  = Return "Foo body".
Proof.
  refine (eq_trans (read_resolves_exact_then_folded
                      ex_JSON_parse {| full_class_name := " A.FOO " |}
                      ex_lookupFile ex_docsDir ex_world ex_lookup _ _ _) _).
  - vm_compute. reflexivity.
  - vm_compute. discriminate.
  - vm_compute. intros H. repeat (apply elem_of_cons in H as [H|H]; [discriminate H|]).
    now apply elem_of_nil in H.
  - vm_compute. reflexivity.
Defined.

(** C4, where the code departs from it. The name [constructor] is no key of
    the index, the index holds [Constructor], equal to it under case folding,
    and the file of that entry is there and readable: resolution as specified
    finds the entry, yet [lookup[className]] finds the inherited member of
    [Object.prototype], the scan is skipped and the handler throws the
    [TypeError] of [path.join]. *)
Theorem read_inherited_name_skips_scan :
  own_property ex_lookup_ctor "constructor" = None
  /\ resolve_spec ex_lookup_ctor "constructor"
     = Some (mkClassInfo "Constructor" "c.md" KClass "")
  /\ fst (readFile (Path.join ex_docsDir "c.md") ex_world_ctor) = Return "Constructor body"
  /\ fst (readHytaleClassDocs ex_JSON_parse {| full_class_name := "constructor" |}
            ex_lookupFile ex_docsDir ex_world_ctor)
     = Throw ERR_INVALID_ARG_TYPE.
Proof. by_evaluation. Qed.

(** C5, as the code has it. A name that resolves to an entry of the index
    (its own key or, for a name that is no member of [Object.prototype], the
    first key equal to it under case folding) whose file is missing or
    unreadable makes Retrieve fail with the rejection of [fs.readFile],
    rethrown as it is. That error is never the one for an unknown name, and
    it carries the code of the file system ([ENOENT] for a path that is not
    there, [EACCES] for a file whose read is refused) where the latter
    carries none; both are plain [Error]s, no kind of its own marks the lost
    body. *)
Theorem missing_body_rethrows_the_read_error
        (JSON_parse : string -> option ClassLookup)
        (args : ReadHytaleClassDocsArgs) (lookupFile docsDir : string)
        (w : world) (lookup : ClassLookup) (info : ClassInfo) :
  fst (loadLookup JSON_parse lookupFile w) = Return (Some lookup) ->
  JS.trim (full_class_name args) <> "" ->
  resolve_spec lookup (JS.trim (full_class_name args)) = Some info ->
  is_Some (own_property lookup (JS.trim (full_class_name args)))
  \/ JS.trim (full_class_name args) ∉ Object_prototype_keys ->
  files w !! Path.join docsDir (path info) = None
  \/ Path.join docsDir (path info) ∈ read_denied w ->
  exists e,
    fst (readHytaleClassDocs JSON_parse args lookupFile docsDir w) = Throw e
    /\ fst (readFile (Path.join docsDir (path info)) w) = Throw e
    /\ is_Some (err_code e)
    /\ (files w !! Path.join docsDir (path info) = None ->
        Path.join docsDir (path info) ∉ dirs w ->
        e = ENOENT "open" (Path.join docsDir (path info)))
    /\ (is_Some (files w !! Path.join docsDir (path info)) ->
        e = EACCES "open" (Path.join docsDir (path info)))
    /\ forall name, e <> not_found name
                    /\ err_code (not_found name) = None
                    /\ err_name e = err_name (not_found name).
Proof.
  intros Hload Hname Hres Hown Hfile.
  set (name := JS.trim (full_class_name args)) in *.
  assert (resolve_class lookup name = OwnEntry info) as Hclass.
  { destruct Hown as [[own Hown] | Hproto].
    - rewrite (resolve_class_own _ _ _ Hown). f_equal.
      unfold resolve_spec in Hres. rewrite own_property_find in Hown.
      destruct (List.find (fun e => String.eqb (fst e) name) lookup);
        [congruence | discriminate Hown].
    - rewrite (resolve_class_spec _ _ Hproto), Hres. reflexivity. }
  rewrite (readHytaleClassDocs_outcome _ _ _ _ _ lookup Hload Hname).
  fold name. rewrite Hclass.
  set (p := Path.join docsDir (path info)) in *.
  assert (exists e, fst (readFile p w) = Throw e) as [e He].
  { unfold readFile. destruct Hfile as [Hnone | Hden].
    - rewrite Hnone. eauto.
    - destruct (files w !! p); [|eauto].
      rewrite decide_True by assumption. eauto. }
  exists e. split; [assumption|]. split; [assumption|].
  destruct (readFile_throws _ _ _ He) as [[Hnone ->] | [Hden ->]].
  - split; [eexists; reflexivity|]. split; [reflexivity|].
    split; [intros [data Hdata]; congruence|].
    intros n. split; [|split; reflexivity].
    intros Heq. apply (f_equal err_code) in Heq. discriminate Heq.
  - split; [eexists; reflexivity|].
    assert (is_Some (files w !! p)) as [data Hdata].
    { unfold readFile in He. destruct (files w !! p); [eauto | ].
      apply (f_equal (fun o => match o with
                               | Throw x => err_code x
                               | Return _ => None
                               end)) in He.
      discriminate He. }
    split; [intros Hnone; congruence|]. split; [reflexivity|].
    intros n. split; [|split; reflexivity].
    intros Heq. apply (f_equal err_code) in Heq. discriminate Heq.
Qed.

Lemma missing_body_rethrows_the_read_error_witness :
  exists e,
    fst (readHytaleClassDocs ex_JSON_parse {| full_class_name := " A.BAR " |}
           ex_lookupFile ex_docsDir (with_files (delete "/docs/f2" ex_files) ex_world))
    = Throw e
    /\ e = ENOENT "open" "/docs/f2"
    /\ forall name, e <> not_found name.
Proof.
  destruct (missing_body_rethrows_the_read_error
              ex_JSON_parse {| full_class_name := " A.BAR " |} ex_lookupFile ex_docsDir
              (with_files (delete "/docs/f2" ex_files) ex_world) ex_lookup
              (mkClassInfo "a.Bar" "f2" KClass "a"))
    as (e & Hout & _ & _ & Hmissing & _ & Hother).
  - vm_compute. reflexivity.
  - vm_compute. discriminate.
  - vm_compute. reflexivity.
  - right. vm_compute. intros H.
    repeat (apply elem_of_cons in H as [H|H]; [discriminate H|]).
    now apply elem_of_nil in H.
  - left. vm_compute. reflexivity.
  - exists e. split; [exact Hout|]. split.
    + apply Hmissing; vm_compute; [reflexivity|discriminate].
    + intros name. exact (proj1 (Hother name)).
Defined.

(** C5 as stated fails. The index holds [a.Bar] with the file [f2], and the
    file has been deleted from the store: the handler throws the [ENOENT]
    error of the read, an [Error] like the one for an unknown name. *)
Lemma missing_body_has_no_kind_of_its_own :
  ~ missing_body_has_its_own_kind ex_JSON_parse.
Proof.
  intros Hkind.
  destruct (Hkind {| full_class_name := "a.Bar" |} ex_lookupFile ex_docsDir
                  (with_files (delete "/docs/f2" ex_files) ex_world) ex_lookup
                  (mkClassInfo "a.Bar" "f2" KClass "a"))
    as (e & Hout & Hdiffers).
  - vm_compute. reflexivity.
  - vm_compute. discriminate.
  - vm_compute. reflexivity.
  - left. vm_compute. reflexivity.
  - vm_compute in Hout. injection Hout as <-.
    apply (Hdiffers "a.Bar"). reflexivity.
Qed.

(** ** The lookup cache after a failed load *)

(** C6, as the code has it. A failed load leaves the cache empty, so the next
    query loads again: it reads and parses the index file as it is then. The
    failure lasts as long as the file stays missing or unparseable, and a
    later load succeeds once a readable index is in place; only a successful
    load is kept for the life of the process. *)
Theorem failed_load_is_retried
        (JSON_parse : string -> option ClassLookup)
        (lookupFile : string) (w : world) :
  fst (loadLookup JSON_parse lookupFile w) = Return None ->
  let w1 := snd (loadLookup JSON_parse lookupFile w) in
  lookupCache w1 = None
  /\ files w1 = files w
  /\ fst (loadLookup JSON_parse lookupFile w1) = Return None
  /\ (forall later : gmap string string,
        fst (loadLookup JSON_parse lookupFile (with_files later w1))
        = Return (read_index JSON_parse lookupFile (with_files later w1)))
  /\ (forall w2 cached,
        fst (loadLookup JSON_parse lookupFile w2) = Return (Some cached) ->
        forall later : gmap string string,
          fst (loadLookup JSON_parse lookupFile
                 (with_files later (snd (loadLookup JSON_parse lookupFile w2))))
          = Return (Some cached)).
Proof.
  intros Hfail w1.
  assert (lookupCache w = None) as Hcache.
  { destruct (lookupCache w) as [c|] eqn:Hc; [|reflexivity].
    rewrite (loadLookup_cached _ _ _ _ Hc) in Hfail. discriminate Hfail. }
  destruct (loadLookup_fresh JSON_parse lookupFile w Hcache) as [Hout Hnext].
  rewrite Hout in Hfail. injection Hfail as Hidx.
  assert (lookupCache w1 = None) as Hcache1 by (subst w1; congruence).
  pose proof (loadLookup_store JSON_parse lookupFile w) as (Hf & _ & Hr & _).
  fold w1 in Hf, Hr.
  split; [assumption|]. split; [assumption|]. split; [|split].
  - rewrite (proj1 (loadLookup_fresh JSON_parse lookupFile w1 Hcache1)).
    unfold read_index. rewrite (readFile_store_only lookupFile w w1 Hf Hr).
    fold (read_index JSON_parse lookupFile w). now rewrite Hidx.
  - intros later. apply loadLookup_fresh. exact Hcache1.
  - intros w2 cached Hok later.
    assert (lookupCache (snd (loadLookup JSON_parse lookupFile w2)) = Some cached) as Hc2.
    { destruct (lookupCache w2) as [c|] eqn:Hc.
      - rewrite (loadLookup_cached _ _ _ _ Hc) in Hok |- *. simpl in *. congruence.
      - destruct (loadLookup_fresh JSON_parse lookupFile w2 Hc) as [Ho Hn].
        rewrite Hn. rewrite Ho in Hok. now injection Hok. }
    rewrite (loadLookup_cached JSON_parse lookupFile _ cached); [reflexivity|].
    exact Hc2.
Qed.

Lemma failed_load_is_retried_witness :
  fst (loadLookup ex_JSON_parse ex_lookupFile
         (with_files ex_files
            (snd (loadLookup ex_JSON_parse ex_lookupFile (with_files ∅ ex_world)))))
  = Return (Some ex_lookup).
Proof.
  refine (eq_trans
            (proj1 (proj2 (proj2 (proj2
               (failed_load_is_retried ex_JSON_parse ex_lookupFile
                                       (with_files ∅ ex_world) _)))) ex_files) _).
  - vm_compute. reflexivity.
  - vm_compute. reflexivity.
Defined.

(** C6 as stated fails: the index file is missing at the first query, which
    fails; the file is then put in place and the next query of the same
    process loads it. *)
Lemma failed_load_is_not_permanent : ~ failed_load_is_permanent ex_JSON_parse.
Proof.
  intros Hperm.
  specialize (Hperm ex_lookupFile (with_files ∅ ex_world) eq_refl ex_files).
  vm_compute in Hperm. discriminate Hperm.
Qed.

(** ** Rules for asynchronous computations *)

Lemma wp_ret {A} (a : A) w (Q : outcome A -> world -> Prop) :
  Q (Return a) w -> wp (ret a) w Q.
Proof. exact id. Qed.

Lemma wp_throw {A} e w (Q : outcome A -> world -> Prop) :
  Q (Throw e) w -> wp (throw e) w Q.
Proof. exact id. Qed.

Lemma wp_log l message w (Q : outcome unit -> world -> Prop) :
  Q (Return ()) (with_logs (logs w ++ [(l, message)]) w) -> wp (log l message) w Q.
Proof. exact id. Qed.

Lemma wp_bind {A B} (c : async A) (k : A -> async B) w (Q : outcome B -> world -> Prop) :
  wp c w (fun o w' => match o with
                      | Return a => wp (k a) w' Q
                      | Throw e => Q (Throw e) w'
                      end) ->
  wp (bind c k) w Q.
Proof. unfold wp, bind. destruct (c w) as [[a|e] w']; simpl; auto. Qed.

Lemma wp_try_catch {A} (c : async A) (h : js_error -> async A) w
      (Q : outcome A -> world -> Prop) :
  wp c w (fun o w' => match o with
                      | Return a => Q (Return a) w'
                      | Throw e => wp (h e) w' Q
                      end) ->
  wp (try_catch c h) w Q.
Proof. unfold wp, try_catch. destruct (c w) as [[a|e] w']; simpl; auto. Qed.

Lemma wp_mono {A} (c : async A) w (Q Q' : outcome A -> world -> Prop) :
  wp c w Q -> (forall o w', Q o w' -> Q' o w') -> wp c w Q'.
Proof. unfold wp. auto. Qed.

Lemma with_logs_id w : with_logs (logs w) w = w.
Proof. now destruct w. Qed.

Lemma with_files_id w : with_files (files w) w = w.
Proof. now destruct w. Qed.

Ltac wp_step :=
  lazymatch goal with
  | |- wp (bind _ _) _ _ => apply wp_bind
  | |- wp (try_catch _ _) _ _ => apply wp_try_catch
  | |- wp (log _ _) _ _ => apply wp_log
  | |- wp (ret _) _ _ => apply wp_ret
  | |- wp (throw _) _ _ => apply wp_throw
  end; cbn beta iota zeta delta [negb].

(** ** The steps of a provisioning run *)

Lemma with_logs_with_logs l l' w : with_logs l (with_logs l' w) = with_logs l w.
Proof. reflexivity. Qed.

Lemma hasUrlChanged_spec dir url w :
  wp (hasUrlChanged dir url) w
     (fun o w' => o = Return (url_changed dir url w) /\ exists l, w' = with_logs l w).
Proof.
  unfold wp, hasUrlChanged, url_changed, id_path, try_catch, bind, readFile.
  destruct (files w !! Path.join dir LAST_URL_FILE) as [stored|]; simpl.
  - destruct (decide (Path.join dir LAST_URL_FILE ∈ read_denied w)); simpl;
      (split; [reflexivity|]); eauto using eq_sym, with_logs_id.
  - split; [reflexivity|]; eauto.
Qed.

Lemma hasUrlChanged_outcome dir url w :
  fst (hasUrlChanged dir url w) = Return (url_changed dir url w).
Proof. exact (proj1 (hasUrlChanged_spec dir url w)). Qed.

Lemma downloadFile_spec url timeout w :
  wp (downloadFile url timeout) w
     (fun o w' =>
        o = download_outcome timeout (remote w url)
        /\ exists l, w' = with_logs l (with_requests (requests w ++ [url]) w)).
Proof.
  unfold wp, downloadFile, download_outcome, try_catch, bind, fetch, log.
  cbn [remote with_logs requests].
  destruct (remote w url) as [status statusText body| |]; simpl.
  - destruct (response_ok status); simpl; split; eauto.
  - split; eauto.
  - split; eauto.
Qed.

(** The extraction in closed form: the entries before the first refused
    write are on disk, the others are not touched. *)
Lemma extractAllTo_eq zip dir :
  forall w,
    extractAllTo zip dir w
    = (match drop (written (write_denied w) dir zip) zip with
       | [] => Return ()
       | e :: _ => Throw (EACCES "open" (entry_path dir (fst e)))
       end,
       with_files (extracted dir (take (written (write_denied w) dir zip) zip) (files w)) w).
Proof.
  induction zip as [|[entryName data] rest IH]; intros w.
  - simpl. unfold ret. now rewrite with_files_id.
  - cbn [extractAllTo written fst]. unfold bind, writeFile.
    destruct (decide (entry_path dir entryName ∈ write_denied w)) as [Hden|Hok].
    + simpl. now rewrite with_files_id.
    + rewrite IH. reflexivity.
Qed.

Lemma mkdir_frame dir w :
  files (snd (mkdir dir w)) = files w
  /\ write_denied (snd (mkdir dir w)) = write_denied w
  /\ read_denied (snd (mkdir dir w)) = read_denied w
  /\ requests (snd (mkdir dir w)) = requests w
  /\ remote (snd (mkdir dir w)) = remote w
  /\ lookupCache (snd (mkdir dir w)) = lookupCache w
  /\ (forall p, p ∈ dirs w -> p ∈ dirs (snd (mkdir dir w)))
  /\ (fst (mkdir dir w) = Return () -> dir ∈ dirs (snd (mkdir dir w))).
Proof.
  unfold mkdir. destruct (decide (dir ∈ dirs w)); simpl; [auto 10|].
  destruct (files w !! dir); simpl; [repeat split; auto; discriminate|].
  destruct (decide (dir ∈ write_denied w)); simpl.
  - repeat split; auto; discriminate.
  - repeat split; auto; intros; set_solver.
Qed.


Lemma mkdir_with_logs dir l w :
  mkdir dir (with_logs l w) = (fst (mkdir dir w), with_logs l (snd (mkdir dir w))).
Proof.
  unfold mkdir. cbn [dirs files write_denied with_logs].
  repeat case_match; reflexivity.
Qed.

Lemma mkdir_throws dir w e : fst (mkdir dir w) = Throw e -> snd (mkdir dir w) = w.
Proof. unfold mkdir. repeat case_match; simpl; congruence. Qed.

Lemma extractZip_spec AdmZip buffer dir w l0 :
  wp (extractZip AdmZip buffer dir) (with_logs l0 w)
     (fun o w' =>
        match fst (mkdir dir w) with
        | Throw e => o = Throw (extraction_failed e) /\ exists l, w' = with_logs l w
        | Return _ =>
            let w2 := snd (mkdir dir w) in
            match AdmZip buffer with
            | None =>
                o = Throw (extraction_failed INVALID_FORMAT)
                /\ exists l, w' = with_logs l w2
            | Some zip =>
                let k := written (write_denied w) dir zip in
                let w3 := with_files (extracted dir (take k zip) (files w)) w2 in
                match drop k zip with
                | e :: _ =>
                    o = Throw (extraction_failed (EACCES "open" (entry_path dir (fst e))))
                    /\ exists l, w' = with_logs l w3
                | [] => o = Return () /\ exists l, w' = with_logs l w3
                end
            end
        end).
Proof.
  unfold extractZip. do 4 wp_step.
  unfold wp at 1. rewrite with_logs_with_logs, mkdir_with_logs. cbn [fst snd].
  pose proof (mkdir_frame dir w) as (Hf & Hwd & _).
  destruct (fst (mkdir dir w)) as [[]|e] eqn:Hmk.
  - destruct (AdmZip buffer) as [zip|].
    + wp_step. unfold wp at 1. rewrite extractAllTo_eq.
      cbn [fst snd write_denied files with_logs]. rewrite Hf, Hwd.
      destruct (drop (written (write_denied w) dir zip) zip) as [|e rest].
      * wp_step. split; [reflexivity|]. eexists. reflexivity.
      * do 3 wp_step. split; [reflexivity|]. eexists. reflexivity.
    + do 4 wp_step. split; [reflexivity|]. eexists. reflexivity.
  - do 3 wp_step. rewrite (mkdir_throws dir w e Hmk).
    split; [reflexivity|]. eexists. reflexivity.
Qed.

Lemma access_with_logs p l w :
  access p (with_logs l w) = (fst (access p w), with_logs l w).
Proof.
  unfold access. cbn [dirs files with_logs]. repeat case_match; reflexivity.
Qed.

Lemma access_outcome p w :
  fst (access p w) = if exists_at w p then Return () else Throw (ENOENT "access" p).
Proof.
  unfold access, exists_at.
  destruct (decide (p ∈ dirs w)) as [Hd|Hd].
  - now rewrite (bool_decide_eq_true_2 _ Hd).
  - rewrite (bool_decide_eq_false_2 _ Hd). cbn [orb].
    destruct (files w !! p) eqn:Hp.
    + rewrite bool_decide_eq_true_2 by eauto. reflexivity.
    + rewrite bool_decide_eq_false_2; [reflexivity|]. intros [? ?]; discriminate.
Qed.

Lemma access_state p w : snd (access p w) = w.
Proof. unfold access. repeat case_match; reflexivity. Qed.

(** The validation looks at two paths only: the directory and the index
    file; it reads nothing. *)
Lemma validateDocsDirectory_spec dir w :
  wp (validateDocsDirectory dir) w
     (fun o w' =>
        o = Return (exists_at w dir && exists_at w (index_path dir))
        /\ exists l, w' = with_logs l w).
Proof.
  unfold validateDocsDirectory. do 2 wp_step.
  unfold wp at 1. rewrite access_outcome, access_state.
  destruct (exists_at w dir); cbn [andb].
  - wp_step. unfold wp at 1. rewrite access_outcome, access_state.
    fold (index_path dir).
    destruct (exists_at w (index_path dir)).
    + do 3 wp_step. split; [reflexivity|]. eexists. reflexivity.
    + do 3 wp_step. split; [reflexivity|]. eexists. reflexivity.
  - do 3 wp_step. split; [reflexivity|]. eexists. reflexivity.
Qed.

(** Saving the identifier never throws: a refused write ends in a warning. *)
Lemma saveLastUrl_spec dir url w :
  wp (saveLastUrl dir url) w
     (fun o w' =>
        o = Return ()
        /\ exists l, w' = with_logs (logs w ++ l) (saved dir url w)
           /\ (id_path dir ∈ write_denied w ->
               l = [(LWarn, "Failed to save last download URL")])).
Proof.
  unfold saveLastUrl, saved. fold (id_path dir). do 2 wp_step.
  unfold wp at 1, writeFile.
  destruct (decide (id_path dir ∈ write_denied w)) as [Hden|Hok]; cbn [fst snd].
  - wp_step. split; [reflexivity|]. eexists. split; [reflexivity|]. reflexivity.
  - wp_step. split; [reflexivity|]. eexists. split; [reflexivity|]. intros H. contradiction.
Qed.

Lemma url_changed_with_logs dir url l w :
  url_changed dir url (with_logs l w) = url_changed dir url w.
Proof.
  unfold url_changed, readFile. cbn [files read_denied with_logs].
  destruct (files w !! id_path dir); [|reflexivity].
  destruct (decide (id_path dir ∈ read_denied w)); reflexivity.
Qed.

(** The closed form of a run is what the code does. *)
Ltac run_failed :=
  split; [reflexivity|]; eexists; split; [reflexivity|];
  rewrite !elem_of_app, !list_elem_of_singleton; auto.

Lemma run_spec AdmZip cfg url w :
  docsUrl cfg = Some url -> url <> "" ->
  wp (downloadAndExtractDocs AdmZip cfg) w (run_summary AdmZip cfg url w).
Proof.
  intros Hurl Hne. unfold downloadAndExtractDocs. rewrite Hurl.
  apply is_empty_false in Hne. unfold JS.falsy. rewrite Hne.
  do 3 wp_step.
  eapply wp_mono; [apply hasUrlChanged_spec|].
  intros o w' Hpost; cbn beta in Hpost; destruct Hpost as (-> & l1 & ->). cbn beta iota.
  rewrite url_changed_with_logs. unfold run_summary.
  destruct (url_changed (docsDir cfg) url w); cbn [negb].
  2:{ wp_step. split; [reflexivity|]. eexists. reflexivity. }
  do 4 wp_step.
  eapply wp_mono; [apply downloadFile_spec|].
  intros o w' Hpost; cbn beta in Hpost; destruct Hpost as (-> & l2 & ->). cbn [remote with_logs].
  destruct (download_outcome (docsDownloadTimeout cfg) (remote w url)) as [body|e].
  2:{ do 3 wp_step. run_failed. }
  do 3 wp_step.
  eapply wp_mono;
    [exact (extractZip_spec AdmZip body (docsDir cfg)
              (with_requests (requests w ++ [url]) w)
              (l2 ++ [(LInfo, "Documentation downloaded successfully")]))|].
  cbn beta.
  intros o w'.
  destruct (fst (mkdir (docsDir cfg) (with_requests (requests w ++ [url]) w)))
    as [[]|e].
  2:{ intros (-> & l3 & ->). do 3 wp_step. run_failed. }
  cbn zeta.
  destruct (AdmZip body) as [zip|].
  2:{ intros (-> & l3 & ->). do 3 wp_step. run_failed. }
  cbn [write_denied files with_requests].
  destruct (drop (written (write_denied w) (docsDir cfg) zip) zip) as [|e rest].
  2:{ intros (-> & l3 & ->). do 3 wp_step. run_failed. }
  intros (-> & l3 & ->). do 3 wp_step.
  eapply wp_mono; [apply validateDocsDirectory_spec|].
  intros o w' Hpost; cbn beta in Hpost; destruct Hpost as (-> & l4 & ->). cbn beta iota.
  set (w3 := with_files _ (snd (mkdir _ _))).
  change (exists_at (with_logs _ (with_logs l3 w3)) (docsDir cfg))
    with (exists_at w3 (docsDir cfg)).
  change (exists_at (with_logs _ (with_logs l3 w3)) (index_path (docsDir cfg)))
    with (exists_at w3 (index_path (docsDir cfg))).
  destruct (exists_at w3 (docsDir cfg) && exists_at w3 (index_path (docsDir cfg)));
    cbn [negb].
  2:{ do 5 wp_step. run_failed. }
  do 3 wp_step.
  eapply wp_mono; [apply saveLastUrl_spec|].
  intros o w' Hpost; cbn beta in Hpost; destruct Hpost as (-> & l5 & -> & Hwarn). cbn beta iota. wp_step.
  split; [reflexivity|].
  assert (write_denied w3 = write_denied w) as Hwd.
  { subst w3. cbn [write_denied with_files].
    rewrite (proj1 (proj2 (mkdir_frame _ _))). reflexivity. }
  eexists. split.
  - unfold saved. cbn [write_denied with_logs files].
    destruct (decide (id_path (docsDir cfg) ∈ write_denied w3)); reflexivity.
  - intros Hden. cbn [logs with_logs] in Hwarn |- *.
    rewrite <- Hwd in Hden. rewrite (Hwarn Hden).
    rewrite !elem_of_app, !list_elem_of_singleton. auto.
Qed.

Lemma run_summary_holds AdmZip cfg url w :
  docsUrl cfg = Some url -> url <> "" ->
  run_summary AdmZip cfg url w
    (fst (downloadAndExtractDocs AdmZip cfg w))
    (snd (downloadAndExtractDocs AdmZip cfg w)).
Proof. intros Hurl Hne. exact (run_spec AdmZip cfg url w Hurl Hne). Qed.

Lemma mkdir_with_requests dir r w :
  mkdir dir (with_requests r w) = (fst (mkdir dir w), with_requests r (snd (mkdir dir w))).
Proof.
  unfold mkdir. cbn [dirs files write_denied with_requests].
  repeat case_match; reflexivity.
Qed.

(** An unchanged identifier: the run returns at once and touches only the
    log. *)
Lemma run_skips AdmZip cfg url w :
  docsUrl cfg = Some url -> url <> "" ->
  url_changed (docsDir cfg) url w = false ->
  fst (downloadAndExtractDocs AdmZip cfg w) = Return ()
  /\ exists l, snd (downloadAndExtractDocs AdmZip cfg w) = with_logs l w.
Proof.
  intros Hurl Hne Hsame.
  pose proof (run_summary_holds AdmZip cfg url w Hurl Hne) as H.
  unfold run_summary in H. rewrite Hsame in H. exact H.
Qed.

(** What no run changes, and the single request of a run that fetches. *)
Lemma run_frame AdmZip cfg url w :
  docsUrl cfg = Some url -> url <> "" ->
  let w' := snd (downloadAndExtractDocs AdmZip cfg w) in
  read_denied w' = read_denied w
  /\ write_denied w' = write_denied w
  /\ remote w' = remote w
  /\ lookupCache w' = lookupCache w
  /\ requests w' = (if url_changed (docsDir cfg) url w
                    then requests w ++ [url] else requests w).
Proof.
  intros Hurl Hne w'.
  pose proof (run_summary_holds AdmZip cfg url w Hurl Hne) as H. fold w' in H.
  pose proof (mkdir_frame (docsDir cfg) w) as (_ & Hwd & Hrd & _ & Hrm & Hc & _).
  unfold run_summary in H. cbv zeta in H.
  rewrite mkdir_with_requests in H. cbn [fst snd] in H.
  destruct (url_changed (docsDir cfg) url w); cbn [negb] in H.
  2:{ destruct H as (_ & l & ->). auto. }
  unfold failed_with, saved in H.
  repeat match type of H with
         | context [match ?x with _ => _ end] => destruct x
         | context [if ?x then _ else _] => destruct x
         end;
    destruct H as (_ & ? & -> & _);
    cbn [read_denied write_denied remote lookupCache requests
         with_logs with_files with_requests];
    auto.
Qed.

Lemma readFile_returns p w data :
  fst (readFile p w) = Return data <-> files w !! p = Some data /\ p ∉ read_denied w.
Proof.
  unfold readFile. destruct (files w !! p) as [d|]; simpl.
  - destruct (decide (p ∈ read_denied w)); simpl; split.
    + discriminate.
    + intros [_ H]. contradiction.
    + intros [= ->]. auto.
    + intros [[= ->] _]. reflexivity.
  - split; [discriminate | intros [H _]; discriminate H].
Qed.

Lemma url_changed_stored dir url w stored :
  fst (readFile (id_path dir) w) = Return stored ->
  url_changed dir url w = negb (String.eqb (JS.trim stored) (JS.trim url)).
Proof. intros H. unfold url_changed. now rewrite H. Qed.

Lemma exists_at_saved dir url l w p :
  exists_at w p = true -> exists_at (with_logs l (saved dir url w)) p = true.
Proof.
  unfold saved, exists_at.
  destruct (decide (id_path dir ∈ write_denied w));
    cbn [dirs files with_logs with_files]; [auto|].
  intros H. apply orb_prop in H as [H|H]; [now rewrite H|].
  apply bool_decide_eq_true in H. apply orb_true_intro. right.
  apply bool_decide_eq_true.
  destruct (decide (id_path dir = p)) as [->|Hneq].
  - rewrite lookup_insert_eq. eauto.
  - rewrite lookup_insert_ne by assumption. exact H.
Qed.

(** The state a run leaves when it has gone through all its steps: the
    identifier on disk is the configured one, unless its write was refused. *)
Lemma run_returns AdmZip cfg url w :
  docsUrl cfg = Some url -> url <> "" ->
  fst (downloadAndExtractDocs AdmZip cfg w) = Return () ->
  let w' := snd (downloadAndExtractDocs AdmZip cfg w) in
  (url_changed (docsDir cfg) url w = false /\ files w' = files w /\ dirs w' = dirs w)
  \/ (url_changed (docsDir cfg) url w = true
      /\ exists_at w' (docsDir cfg) = true
      /\ exists_at w' (index_path (docsDir cfg)) = true
      /\ (id_path (docsDir cfg) ∉ write_denied w ->
          files w' !! id_path (docsDir cfg) = Some url)).
Proof.
  intros Hurl Hne Hret w'.
  pose proof (run_summary_holds AdmZip cfg url w Hurl Hne) as H.
  fold w' in H. rewrite Hret in H.
  unfold run_summary in H. cbv zeta in H.
  destruct (url_changed (docsDir cfg) url w); cbn [negb] in H.
  2:{ left. destruct H as (_ & l & ->). auto. }
  right. split; [reflexivity|].
  unfold failed_with in H.
  repeat match type of H with
         | context [match ?x with _ => _ end] => destruct x eqn:?
         end;
    try (destruct H as [H _]; discriminate H).
  destruct H as (_ & lg & -> & _).
  match goal with
  | Hv : (exists_at ?w3 _ && exists_at ?w3 _) = true |- _ =>
      apply andb_prop in Hv as [Hd Hi]; set (w3' := w3) in *
  end.
  assert (write_denied w3' = write_denied w) as Hwd.
  { subst w3'. cbn [write_denied with_files]. rewrite mkdir_with_requests.
    cbn [snd write_denied with_requests]. apply mkdir_frame. }
  split; [now apply exists_at_saved|]. split; [now apply exists_at_saved|].
  intros Hok. unfold saved. rewrite Hwd, decide_False by assumption.
  cbn [files with_logs with_files]. apply lookup_insert_eq.
Qed.

(** C8. With the configured identifier equal, after trimming, to the one on
    disk, a run returns without any request to the remote host and leaves
    the files and directories of the store as they are; with no identifier
    file on disk the identifier counts as changed and the run fetches; and a
    run that went through is followed, for the same configuration, by a run
    that fetches nothing and changes nothing. *)
Theorem unchanged_identifier_skips_download
        (AdmZip : string -> option (list (string * string)))
        (cfg : ServerConfig) (url : string) (w : world) :
  docsUrl cfg = Some url -> url <> "" ->
  let run := downloadAndExtractDocs AdmZip cfg in
  (forall stored,
      fst (readFile (id_path (docsDir cfg)) w) = Return stored ->
      JS.trim stored = JS.trim url ->
      fst (run w) = Return ()
      /\ requests (snd (run w)) = requests w
      /\ files (snd (run w)) = files w
      /\ dirs (snd (run w)) = dirs w)
  /\ (files w !! id_path (docsDir cfg) = None ->
      fst (hasUrlChanged (docsDir cfg) url w) = Return true
      /\ requests (snd (run w)) = requests w ++ [url])
  /\ (id_path (docsDir cfg) ∉ read_denied w ->
      id_path (docsDir cfg) ∉ write_denied w ->
      fst (run w) = Return () ->
      fst (run (snd (run w))) = Return ()
      /\ requests (snd (run (snd (run w)))) = requests (snd (run w))
      /\ files (snd (run (snd (run w)))) = files (snd (run w))
      /\ dirs (snd (run (snd (run w)))) = dirs (snd (run w))).
Proof.
  intros Hurl Hne run.
  assert (forall v, url_changed (docsDir cfg) url v = false ->
                    fst (run v) = Return ()
                    /\ requests (snd (run v)) = requests v
                    /\ files (snd (run v)) = files v
                    /\ dirs (snd (run v)) = dirs v) as Hskip.
  { intros v Hsame.
    destruct (run_skips AdmZip cfg url v Hurl Hne Hsame) as (Hret & l & Hw).
    subst run. rewrite Hret, Hw. auto. }
  split; [|split].
  - intros stored Hread Htrim. apply Hskip.
    rewrite (url_changed_stored _ _ _ _ Hread), Htrim, String.eqb_refl. reflexivity.
  - intros Habsent.
    assert (url_changed (docsDir cfg) url w = true) as Hch.
    { unfold url_changed, readFile. now rewrite Habsent. }
    split.
    + rewrite hasUrlChanged_outcome, Hch. reflexivity.
    + pose proof (run_frame AdmZip cfg url w Hurl Hne) as (_ & _ & _ & _ & Hreq).
      rewrite Hch in Hreq. exact Hreq.
  - intros Hrd Hwd Hret. apply Hskip.
    pose proof (run_frame AdmZip cfg url w Hurl Hne) as (Hrd' & _).
    destruct (run_returns AdmZip cfg url w Hurl Hne Hret)
      as [(Hsame & Hf & _) | (_ & _ & _ & Hid)].
    + unfold url_changed in *.
      rewrite (readFile_store_only _ w _ Hf Hrd'). exact Hsame.
    + specialize (Hid Hwd).
      assert (fst (readFile (id_path (docsDir cfg)) (snd (run w))) = Return url) as Hread.
      { apply readFile_returns. split; [exact Hid|]. subst run. now rewrite Hrd'. }
      rewrite (url_changed_stored _ _ _ _ Hread), String.eqb_refl. reflexivity.
Qed.

Lemma unchanged_identifier_skips_download_witness :
  let run := downloadAndExtractDocs ex_AdmZip (ex_config " https://host/v1.zip ") in
  fst (run (ex_online ∅)) = Return ()
  /\ requests (snd (run (ex_online ∅))) = []
  /\ files (snd (run (ex_online ∅))) = ex_files
  /\ dirs (snd (run (ex_online ∅))) = {[ "/docs" ]}.
Proof.
  refine (proj1 (unchanged_identifier_skips_download
                   ex_AdmZip (ex_config " https://host/v1.zip ")
                   " https://host/v1.zip " (ex_online ∅) _ _)
                "https://host/v1.zip" _ _).
  - reflexivity.
  - discriminate.
  - vm_compute. reflexivity.
  - vm_compute. reflexivity.
Defined.

(** ** Retrieve depends on the store and the cache only *)

Lemma loadLookup_outcome JSON_parse lookupFile w :
  fst (loadLookup JSON_parse lookupFile w)
  = Return (match lookupCache w with
            | Some cached => Some cached
            | None => read_index JSON_parse lookupFile w
            end).
Proof.
  destruct (lookupCache w) as [c|] eqn:Hc.
  - now rewrite (loadLookup_cached _ _ _ _ Hc).
  - apply loadLookup_fresh. exact Hc.
Qed.

Lemma readHytaleClassDocs_eq JSON_parse args lookupFile docsDir w :
  fst (readHytaleClassDocs JSON_parse args lookupFile docsDir w)
  = match fst (loadLookup JSON_parse lookupFile w) with
    | Return (Some lookup) =>
        if JS.falsy (JS.trim (full_class_name args))
        then Throw (new_Error "Class name cannot be empty")
        else match resolve_class lookup (JS.trim (full_class_name args)) with
             | OwnEntry info => fst (readFile (Path.join docsDir (path info)) w)
             | Inherited => Throw ERR_INVALID_ARG_TYPE
             | Undefined => Throw (not_found (JS.trim (full_class_name args)))
             end
    | Return None => Throw (new_Error "Class lookup index not found")
    | Throw e => Throw e
    end.
Proof.
  destruct (fst (loadLookup JSON_parse lookupFile w)) as [[lookup|]|e] eqn:Hload.
  - destruct (JS.falsy (JS.trim (full_class_name args))) eqn:Hempty.
    + unfold readHytaleClassDocs, try_catch, bind.
      destruct (loadLookup JSON_parse lookupFile w) as [r w1]. simpl in Hload. subst r.
      rewrite Hempty. reflexivity.
    + apply readHytaleClassDocs_outcome; [assumption|].
      now apply is_empty_false.
  - unfold readHytaleClassDocs, try_catch, bind.
    destruct (loadLookup JSON_parse lookupFile w) as [r w1]. simpl in Hload. subst r.
    reflexivity.
  - rewrite loadLookup_outcome in Hload. discriminate Hload.
Qed.

Lemma readHytaleClassDocs_frame JSON_parse args lookupFile docsDir w w' :
  files w' = files w -> read_denied w' = read_denied w ->
  lookupCache w' = lookupCache w ->
  fst (readHytaleClassDocs JSON_parse args lookupFile docsDir w')
  = fst (readHytaleClassDocs JSON_parse args lookupFile docsDir w).
Proof.
  intros Hf Hr Hc. rewrite !readHytaleClassDocs_eq, !loadLookup_outcome.
  unfold read_index. rewrite Hc, (readFile_store_only lookupFile w w' Hf Hr).
  destruct (match lookupCache w with
            | Some cached => Some cached
            | None => match fst (readFile lookupFile w) with
                      | Return data => JSON_parse data
                      | Throw _ => None
                      end
            end) as [lookup|]; [|reflexivity].
  destruct (JS.falsy _); [reflexivity|].
  destruct (resolve_class _ _); try reflexivity.
  apply readFile_store_only; assumption.
Qed.

(** ** Failed fetch *)

Lemma downloadFile_outcome url timeout w :
  fst (downloadFile url timeout w) = download_outcome timeout (remote w url).
Proof. exact (proj1 (downloadFile_spec url timeout w)). Qed.

(** C2, as the code has it. When the fetch fails the run logs the failure
    and throws the error of the fetch to its caller, whether or not a bundle
    is on disk; the store is left as it was, so Retrieve answers afterwards
    exactly as it did before. *)
Theorem failed_fetch_is_rethrown
        (AdmZip : string -> option (list (string * string)))
        (cfg : ServerConfig) (url : string) (w : world) (e : js_error) :
  docsUrl cfg = Some url -> url <> "" ->
  fst (hasUrlChanged (docsDir cfg) url w) = Return true ->
  fst (downloadFile url (docsDownloadTimeout cfg) w) = Throw e ->
  let w' := snd (downloadAndExtractDocs AdmZip cfg w) in
  fst (downloadAndExtractDocs AdmZip cfg w) = Throw e
  /\ (LError, "Failed to download and extract documentation") ∈ logs w'
  /\ files w' = files w
  /\ dirs w' = dirs w
  /\ forall JSON_parse args lookupFile docsDir,
       fst (readHytaleClassDocs JSON_parse args lookupFile docsDir w')
       = fst (readHytaleClassDocs JSON_parse args lookupFile docsDir w).
Proof.
  intros Hurl Hne Hch Hdl w'.
  rewrite hasUrlChanged_outcome in Hch. injection Hch as Hch.
  rewrite downloadFile_outcome in Hdl.
  pose proof (run_summary_holds AdmZip cfg url w Hurl Hne) as H. fold w' in H.
  unfold run_summary in H. rewrite Hch in H. cbn [negb] in H. cbv zeta in H.
  rewrite Hdl in H. destruct H as (Hret & l & Hw & Hlog).
  rewrite Hw. cbn [logs files dirs with_logs with_requests].
  repeat split; try assumption.
  intros. apply readHytaleClassDocs_frame; reflexivity.
Qed.

Lemma failed_fetch_is_rethrown_witness :
  let run := downloadAndExtractDocs ex_AdmZip (ex_config "https://host/v2.zip") in
  fst (run ex_world) = Throw fetch_failed
  /\ (LError, "Failed to download and extract documentation") ∈ logs (snd (run ex_world))
  /\ files (snd (run ex_world)) = ex_files
  /\ dirs (snd (run ex_world)) = {[ "/docs" ]}
  /\ forall JSON_parse args lookupFile docsDir,
       fst (readHytaleClassDocs JSON_parse args lookupFile docsDir (snd (run ex_world)))
       = fst (readHytaleClassDocs JSON_parse args lookupFile docsDir ex_world).
Proof.
  refine (failed_fetch_is_rethrown ex_AdmZip (ex_config "https://host/v2.zip")
            "https://host/v2.zip" ex_world fetch_failed _ _ _ _).
  - reflexivity.
  - discriminate.
  - vm_compute. reflexivity.
  - vm_compute. reflexivity.
Defined.

(** C2 as stated fails: a valid bundle is on disk, the host cannot be
    reached, and the run throws instead of returning. *)
Lemma failed_fetch_is_propagated : ~ stale_fallback ex_AdmZip.
Proof.
  intros Hstale.
  specialize (Hstale (ex_config "https://host/v2.zip") "https://host/v2.zip"
                     ex_world fetch_failed).
  assert (fst (downloadAndExtractDocs ex_AdmZip (ex_config "https://host/v2.zip") ex_world)
          = Return ()) as Hret.
  { apply Hstale.
    - reflexivity.
    - discriminate.
    - vm_compute. reflexivity.
    - vm_compute. reflexivity.
    - vm_compute. reflexivity. }
  vm_compute in Hret. discriminate Hret.
Qed.

(** ** Extraction *)

Lemma extracted_lookup_other dir zip :
  forall f p,
    (forall e, e ∈ zip -> entry_path dir (fst e) <> p) ->
    extracted dir zip f !! p = f !! p.
Proof.
  induction zip as [|e rest IH]; intros f p Hother; [reflexivity|].
  unfold extracted in *. cbn [fold_left]. rewrite IH.
  - apply lookup_insert_ne. apply Hother. apply elem_of_cons. now left.
  - intros e' He'. apply Hother. apply elem_of_cons. now right.
Qed.

Lemma written_stops denied dir done e rest :
  (forall d, d ∈ done -> entry_path dir (fst d) ∉ denied) ->
  entry_path dir (fst e) ∈ denied ->
  written denied dir (done ++ e :: rest) = length done.
Proof.
  intros Hdone He. induction done as [|d done IH]; cbn [written app length].
  - now rewrite decide_True.
  - rewrite decide_False by (apply Hdone; apply elem_of_cons; now left).
    f_equal. apply IH. intros d' Hd'. apply Hdone. apply elem_of_cons. now right.
Qed.

Lemma written_all denied dir zip :
  (forall d, d ∈ zip -> entry_path dir (fst d) ∉ denied) ->
  written denied dir zip = length zip.
Proof.
  intros Hzip. induction zip as [|d zip IH]; cbn [written length]; [reflexivity|].
  rewrite decide_False by (apply Hzip; apply elem_of_cons; now left).
  f_equal. apply IH. intros d' Hd'. apply Hzip. apply elem_of_cons. now right.
Qed.

(** C1, as the code has it. The archive is extracted in place, entry by
    entry. When the write of an entry is refused the run throws the
    extraction error; the entries written before it stay in the store, over
    what was there, and every other path holds what it held. Nothing is
    staged and nothing is rolled back. *)
Theorem failed_extraction_keeps_written_entries
        (AdmZip : string -> option (list (string * string)))
        (cfg : ServerConfig) (url body : string) (w : world)
        (done rest : list (string * string)) (e : string * string) :
  docsUrl cfg = Some url -> url <> "" ->
  fst (hasUrlChanged (docsDir cfg) url w) = Return true ->
  fst (downloadFile url (docsDownloadTimeout cfg) w) = Return body ->
  AdmZip body = Some (done ++ e :: rest) ->
  fst (mkdir (docsDir cfg) w) = Return () ->
  (forall d, d ∈ done -> entry_path (docsDir cfg) (fst d) ∉ write_denied w) ->
  entry_path (docsDir cfg) (fst e) ∈ write_denied w ->
  let w' := snd (downloadAndExtractDocs AdmZip cfg w) in
  fst (downloadAndExtractDocs AdmZip cfg w)
  = Throw (extraction_failed (EACCES "open" (entry_path (docsDir cfg) (fst e))))
  /\ files w' = extracted (docsDir cfg) done (files w)
  /\ (forall p, (forall d, d ∈ done -> entry_path (docsDir cfg) (fst d) <> p) ->
                files w' !! p = files w !! p)
  /\ (LError, "Failed to download and extract documentation") ∈ logs w'.
Proof.
  intros Hurl Hne Hch Hdl Hzip Hmk Hdone He w'.
  rewrite hasUrlChanged_outcome in Hch. injection Hch as Hch.
  rewrite downloadFile_outcome in Hdl.
  pose proof (run_summary_holds AdmZip cfg url w Hurl Hne) as H. fold w' in H.
  unfold run_summary in H. rewrite Hch in H. cbn [negb] in H. cbv zeta in H.
  rewrite Hdl, mkdir_with_requests in H. cbn [fst snd] in H.
  rewrite Hmk, Hzip, (written_stops _ _ _ _ _ Hdone He) in H.
  rewrite drop_app_length, take_app_length in H.
  destruct H as (Hret & l & Hw & Hlog).
  assert (files w' = extracted (docsDir cfg) done (files w)) as Hfiles.
  { rewrite Hw. reflexivity. }
  split; [exact Hret|]. split; [exact Hfiles|]. split.
  - intros p Hp. rewrite Hfiles. now apply extracted_lookup_other.
  - rewrite Hw. exact Hlog.
Qed.

Lemma failed_extraction_keeps_written_entries_witness :
  let run := downloadAndExtractDocs ex_AdmZip (ex_config "https://host/v2.zip") in
  let w := ex_online {[ "/docs/g1" ]} in
  fst (run w) = Throw (extraction_failed (EACCES "open" "/docs/g1"))
  /\ files (snd (run w)) = <[ "/docs/class_lookup.json" := "index-2" ]> ex_files
  /\ (forall p, (forall d, d ∈ [("class_lookup.json", "index-2")] ->
                           entry_path "/docs" (fst d) <> p) ->
                files (snd (run w)) !! p = ex_files !! p)
  /\ (LError, "Failed to download and extract documentation") ∈ logs (snd (run w)).
Proof.
  refine (failed_extraction_keeps_written_entries
            ex_AdmZip (ex_config "https://host/v2.zip") "https://host/v2.zip" "zip-2"
            (ex_online {[ "/docs/g1" ]})
            [("class_lookup.json", "index-2")] [] ("g1", "Qux body")
            _ _ _ _ _ _ _ _).
  - reflexivity.
  - discriminate.
  - vm_compute. reflexivity.
  - vm_compute. reflexivity.
  - reflexivity.
  - vm_compute. reflexivity.
  - intros d Hd. apply list_elem_of_singleton in Hd. subst d.
    vm_compute. intros Hin. discriminate Hin.
  - vm_compute. reflexivity.
Defined.

(** C1 as stated fails. The store holds bundle [v1]; the archive of [v2]
    has a new index and one body, and the write of the body is refused. The
    run throws, and the store then shows the index of [v2] without the body:
    neither all of the new content nor none of it. *)
Lemma extraction_is_not_atomic : ~ extraction_is_atomic ex_AdmZip.
Proof.
  intros Hatomic.
  specialize (Hatomic (ex_config "https://host/v2.zip") "https://host/v2.zip"
                      (ex_online {[ "/docs/g1" ]}) 200 "OK" "zip-2"
                      [("class_lookup.json", "index-2"); ("g1", "Qux body")]
                      eq_refl eq_refl eq_refl).
  cbv zeta in Hatomic. destruct Hatomic as [Hall | Hnone].
  - specialize (Hall ("g1", "Qux body")).
    assert (("g1", "Qux body") ∈ [("class_lookup.json", "index-2"); ("g1", "Qux body")])
      as Hin by (apply elem_of_cons; right; apply elem_of_cons; now left).
    specialize (Hall Hin). vm_compute in Hall. discriminate Hall.
  - specialize (Hnone ("class_lookup.json", "index-2")).
    assert (("class_lookup.json", "index-2")
              ∈ [("class_lookup.json", "index-2"); ("g1", "Qux body")])
      as Hin by (apply elem_of_cons; now left).
    specialize (Hnone Hin). vm_compute in Hnone. discriminate Hnone.
Qed.

(** ** The stored identifier *)

Lemma download_outcome_returns timeout r body :
  download_outcome timeout r = Return body ->
  exists status statusText, r = Reply status statusText body.
Proof.
  destruct r as [status statusText b| |]; simpl; try discriminate.
  destruct (response_ok status); [|discriminate].
  intros [= ->]. eauto.
Qed.

Lemma run_without_url AdmZip cfg w :
  docsUrl cfg = None \/ docsUrl cfg = Some "" ->
  fst (downloadAndExtractDocs AdmZip cfg w) = Return ()
  /\ exists l, snd (downloadAndExtractDocs AdmZip cfg w) = with_logs l w.
Proof.
  unfold downloadAndExtractDocs. intros [-> | ->]; simpl; eauto.
Qed.

(** C7, as the code has it. The identifier file is written by the last step
    of a run only: unless the archive itself carries an entry that lands on
    the identifier file, a run either leaves that file as it was, or it has
    fetched the archive, extracted all of it, found the directory and the
    index file in the extracted store, and then written the configured
    identifier. *)
Theorem identifier_written_only_after_validation
        (AdmZip : string -> option (list (string * string)))
        (cfg : ServerConfig) (w : world) :
  (forall url status statusText body zip e,
      docsUrl cfg = Some url ->
      remote w url = Reply status statusText body ->
      AdmZip body = Some zip -> e ∈ zip ->
      entry_path (docsDir cfg) (fst e) <> id_path (docsDir cfg)) ->
  let dir := docsDir cfg in
  let w' := snd (downloadAndExtractDocs AdmZip cfg w) in
  files w' !! id_path dir = files w !! id_path dir
  \/ exists url body zip,
       docsUrl cfg = Some url
       /\ fst (downloadAndExtractDocs AdmZip cfg w) = Return ()
       /\ fst (downloadFile url (docsDownloadTimeout cfg) w) = Return body
       /\ AdmZip body = Some zip
       /\ written (write_denied w) dir zip = length zip
       /\ (let extractedStore :=
             with_files (extracted dir zip (files w)) (snd (mkdir dir w)) in
           exists_at extractedStore dir = true
           /\ exists_at extractedStore (index_path dir) = true)
       /\ files w' = <[id_path dir := url]> (extracted dir zip (files w)).
Proof.
  intros Hentries dir w'.
  destruct (docsUrl cfg) as [url|] eqn:Hurl.
  2:{ left. destruct (run_without_url AdmZip cfg w (or_introl Hurl)) as (_ & l & Hw).
      subst w'. now rewrite Hw. }
  destruct (decide (url = "")) as [->|Hne].
  { left. destruct (run_without_url AdmZip cfg w (or_intror Hurl)) as (_ & l & Hw).
    subst w'. now rewrite Hw. }
  pose proof (run_summary_holds AdmZip cfg url w Hurl Hne) as H. fold w' in H.
  pose proof (mkdir_frame dir w) as (Hf & Hwd & _).
  unfold run_summary in H. cbv zeta in H. fold dir in H.
  rewrite mkdir_with_requests in H. cbn [fst snd] in H.
  destruct (url_changed dir url w); cbn [negb] in H.
  2:{ left. destruct H as (_ & l & ->). reflexivity. }
  destruct (download_outcome (docsDownloadTimeout cfg) (remote w url))
    as [body|e] eqn:Hdl.
  2:{ left. destruct H as (_ & l & -> & _). reflexivity. }
  destruct (fst (mkdir dir w)) as [[]|e] eqn:Hmk.
  2:{ left. destruct H as (_ & l & -> & _). reflexivity. }
  destruct (AdmZip body) as [zip|] eqn:Hzip.
  2:{ left. destruct H as (_ & l & -> & _).
      cbn [files with_logs with_requests]. now rewrite Hf. }
  destruct (download_outcome_returns _ _ _ Hdl) as (status & statusText & Hreply).
  assert (forall k, extracted dir (take k zip) (files w) !! id_path dir
                    = files w !! id_path dir) as Hkeep.
  { intros k. apply extracted_lookup_other. intros e He.
    apply (Hentries url status statusText body zip e eq_refl Hreply Hzip).
    now apply (subseteq_take k zip). }
  set (k := written (write_denied w) dir zip) in *.
  destruct (drop k zip) as [|e rest] eqn:Hdrop.
  2:{ left. destruct H as (_ & l & -> & _).
      cbn [files with_logs with_files]. apply Hkeep. }
  assert (take k zip = zip) as Htake by (apply take_ge; now apply drop_nil_inv).
  rewrite Htake in H.
  set (w3 := with_files (extracted dir zip (files w))
                        (with_requests (requests w ++ [url]) (snd (mkdir dir w)))) in *.
  destruct (exists_at w3 dir && exists_at w3 (index_path dir)) eqn:Hvalid.
  2:{ left. destruct H as (_ & l & -> & _).
      subst w3. cbn [files with_logs with_files]. rewrite <- Htake. apply Hkeep. }
  destruct H as (Hret & l & Hw & _).
  unfold saved in Hw. subst w3. cbn [write_denied with_files with_requests] in Hw.
  rewrite Hwd in Hw.
  destruct (decide (id_path dir ∈ write_denied w)) as [Hden|Hok].
  - left. rewrite Hw. cbn [files with_logs with_files].
    rewrite <- Htake. apply Hkeep.
  - right. exists url, body, zip.
    split; [reflexivity|]. split; [exact Hret|].
    split; [now rewrite downloadFile_outcome|]. split; [exact Hzip|].
    split.
    { pose proof (drop_nil_inv _ _ Hdrop) as Hlen.
      assert (k <= length zip); [|lia].
      subst k. clear. induction zip as [|d zip IH]; cbn [written length]; [lia|].
      destruct (decide _); lia. }
    split; [|rewrite Hw; reflexivity].
    apply andb_prop in Hvalid. exact Hvalid.
Qed.

Lemma identifier_written_only_after_validation_witness :
  let cfg := ex_config "https://host/v2.zip" in
  let w := ex_online ∅ in
  let w' := snd (downloadAndExtractDocs ex_AdmZip cfg w) in
  files w' !! id_path "/docs" = files w !! id_path "/docs"
  \/ exists url body zip,
       docsUrl cfg = Some url
       /\ fst (downloadAndExtractDocs ex_AdmZip cfg w) = Return ()
       /\ fst (downloadFile url (docsDownloadTimeout cfg) w) = Return body
       /\ ex_AdmZip body = Some zip
       /\ written (write_denied w) "/docs" zip = length zip
       /\ (let extractedStore :=
             with_files (extracted "/docs" zip (files w)) (snd (mkdir "/docs" w)) in
           exists_at extractedStore "/docs" = true
           /\ exists_at extractedStore (index_path "/docs") = true)
       /\ files w' = <[id_path "/docs" := url]> (extracted "/docs" zip (files w)).
Proof.
  refine (identifier_written_only_after_validation
            ex_AdmZip (ex_config "https://host/v2.zip") (ex_online ∅) _).
  intros url status statusText body zip e Hurl Hreply Hzip He.
  injection Hurl as <-. vm_compute in Hreply. injection Hreply as <- <- <-.
  vm_compute in Hzip. injection Hzip as <-.
  apply elem_of_cons in He as [-> | He]; [vm_compute; discriminate|].
  apply list_elem_of_singleton in He as ->. vm_compute. discriminate.
Defined.

(** C7 as stated fails in its second half. The store holds bundle [v1] and
    its identifier; the run for [v2] downloads, extracts and validates, and
    the write of the identifier is refused. The run returns, the store holds
    the index of [v2], and the identifier on disk still names [v1]. *)
Lemma identifier_lags_behind_store : ~ identifier_reflects_store ex_AdmZip.
Proof.
  intros Hreflects.
  specialize (Hreflects (ex_config "https://host/v2.zip")
                        (ex_online {[ "/docs/.last-download-url" ]})).
  cbv zeta in Hreflects.
  assert (materialised ex_AdmZip "/docs"
            (snd (downloadAndExtractDocs ex_AdmZip (ex_config "https://host/v2.zip")
                    (ex_online {[ "/docs/.last-download-url" ]})))
            "https://host/v1.zip") as Hmat.
  { apply Hreflects; [|vm_compute; reflexivity].
    intros id Hid. vm_compute in Hid. injection Hid as <-.
    exists 200, "OK", "zip-1",
      [("class_lookup.json", "index-1"); ("f1", "Foo body"); ("f2", "Bar body")].
    split; [reflexivity|]. split; [reflexivity|].
    intros e He.
    repeat (apply elem_of_cons in He as [-> | He]; [vm_compute; reflexivity|]).
    now apply elem_of_nil in He. }
  destruct Hmat as (status & statusText & body & zip & Hreply & Hzip & Hall).
  vm_compute in Hreply. injection Hreply as <- <- <-.
  vm_compute in Hzip. injection Hzip as <-.
  specialize (Hall ("class_lookup.json", "index-1")).
  assert (("class_lookup.json", "index-1")
            ∈ [("class_lookup.json", "index-1"); ("f1", "Foo body"); ("f2", "Bar body")])
    as Hin by (apply elem_of_cons; now left).
  specialize (Hall Hin). vm_compute in Hall. discriminate Hall.
Qed.

(** ** Validation *)

Lemma validateDocsDirectory_outcome dir w :
  fst (validateDocsDirectory dir w)
  = Return (exists_at w dir && exists_at w (index_path dir)).
Proof. exact (proj1 (validateDocsDirectory_spec dir w)). Qed.

(** C9, as the code has it. Validation looks at two paths: it passes exactly
    when the store directory and the index file [class_lookup.json] exist,
    whatever the other files of the store are; at the end of a run that
    fetched and returned, these two exist. The index is not read and the
    files of its entries are not looked at. *)
Theorem validation_checks_the_index_file_only
        (AdmZip : string -> option (list (string * string)))
        (cfg : ServerConfig) (url : string) (w : world) :
  docsUrl cfg = Some url -> url <> "" ->
  fst (hasUrlChanged (docsDir cfg) url w) = Return true ->
  fst (downloadAndExtractDocs AdmZip cfg w) = Return () ->
  let dir := docsDir cfg in
  let w' := snd (downloadAndExtractDocs AdmZip cfg w) in
  exists_at w' dir = true
  /\ exists_at w' (index_path dir) = true
  /\ (forall v, fst (validateDocsDirectory dir v)
                = Return (exists_at v dir && exists_at v (index_path dir)))
  /\ (forall v p, p <> dir -> p <> index_path dir ->
                  fst (validateDocsDirectory dir (with_files (delete p (files v)) v))
                  = fst (validateDocsDirectory dir v)).
Proof.
  intros Hurl Hne Hch Hret dir w'.
  rewrite hasUrlChanged_outcome in Hch. injection Hch as Hch.
  destruct (run_returns AdmZip cfg url w Hurl Hne Hret)
    as [(Hsame & _) | (_ & Hd & Hi & _)]; [congruence|].
  split; [exact Hd|]. split; [exact Hi|]. split.
  - intros v. apply validateDocsDirectory_outcome.
  - intros v p Hpd Hpi. rewrite !validateDocsDirectory_outcome.
    unfold exists_at. cbn [dirs files with_files].
    rewrite !lookup_delete_ne by assumption. reflexivity.
Qed.

Lemma validation_checks_the_index_file_only_witness :
  let cfg := ex_config "https://host/v3.zip" in
  let w' := snd (downloadAndExtractDocs ex_AdmZip cfg (ex_online ∅)) in
  exists_at w' "/docs" = true
  /\ exists_at w' (index_path "/docs") = true
  /\ (forall v, fst (validateDocsDirectory "/docs" v)
                = Return (exists_at v "/docs" && exists_at v (index_path "/docs")))
  /\ (forall v p, p <> "/docs" -> p <> index_path "/docs" ->
                  fst (validateDocsDirectory "/docs" (with_files (delete p (files v)) v))
                  = fst (validateDocsDirectory "/docs" v)).
Proof.
  refine (validation_checks_the_index_file_only
            ex_AdmZip (ex_config "https://host/v3.zip") "https://host/v3.zip"
            (ex_online ∅) _ _ _ _).
  - reflexivity.
  - discriminate.
  - vm_compute. reflexivity.
  - vm_compute. reflexivity.
Defined.

(** C9 as stated fails. The archive of [v3] holds an index that names the
    class [b.Qux] with the body [g1], and no file [g1]. The run accepts the
    bundle and returns; the file of the entry is not in the store. *)
Lemma accepted_bundle_misses_a_body :
  ~ accepted_bundle_has_every_body ex_AdmZip ex_JSON_parse.
Proof.
  intros Hevery.
  specialize (Hevery (ex_config "https://host/v3.zip") "https://host/v3.zip" (ex_online ∅)).
  cbv zeta in Hevery.
  destruct (Hevery eq_refl) with (lookup := ex_lookup_v2) (key := "b.Qux")
                                 (info := mkClassInfo "b.Qux" "g1" KEnum "b")
    as [body Hbody].
  - discriminate.
  - vm_compute. reflexivity.
  - vm_compute. reflexivity.
  - vm_compute. reflexivity.
  - apply list_elem_of_singleton. reflexivity.
  - vm_compute in Hbody. discriminate Hbody.
Qed.

(** ** A refused write of the identifier *)

Lemma url_changed_frame dir url w w' :
  files w' !! id_path dir = files w !! id_path dir ->
  read_denied w' = read_denied w ->
  url_changed dir url w' = url_changed dir url w.
Proof.
  intros Hf Hr. unfold url_changed, readFile. rewrite Hf, Hr.
  destruct (files w !! id_path dir); [|reflexivity].
  destruct (decide (id_path dir ∈ read_denied w)); reflexivity.
Qed.

(** C10. The archive is fetched, every entry is written and the index file
    is in the extracted store, and the write of the identifier file is
    refused: the run still returns. The refusal shows as a warning in the
    log only; the identifier file holds what it held (or stays absent), so
    the next run finds the identifier changed and fetches the same bundle
    again. *)
Theorem failed_save_is_only_a_warning
        (AdmZip : string -> option (list (string * string)))
        (cfg : ServerConfig) (url body : string) (w : world)
        (zip : list (string * string)) :
  docsUrl cfg = Some url -> url <> "" ->
  fst (hasUrlChanged (docsDir cfg) url w) = Return true ->
  fst (downloadFile url (docsDownloadTimeout cfg) w) = Return body ->
  AdmZip body = Some zip ->
  fst (mkdir (docsDir cfg) w) = Return () ->
  (forall e, e ∈ zip -> entry_path (docsDir cfg) (fst e) ∉ write_denied w) ->
  exists_at (with_files (extracted (docsDir cfg) zip (files w)) w)
            (index_path (docsDir cfg)) = true ->
  id_path (docsDir cfg) ∈ write_denied w ->
  let run := downloadAndExtractDocs AdmZip cfg in
  let w' := snd (run w) in
  fst (run w) = Return ()
  /\ (LWarn, "Failed to save last download URL") ∈ logs w'
  /\ files w' = extracted (docsDir cfg) zip (files w)
  /\ files w' !! id_path (docsDir cfg) = files w !! id_path (docsDir cfg)
  /\ fst (hasUrlChanged (docsDir cfg) url w') = Return true
  /\ requests (snd (run w')) = requests w ++ [url; url].
Proof.
  intros Hurl Hne Hch Hdl Hzip Hmk Hall Hindex Hden run w'.
  rewrite hasUrlChanged_outcome in Hch. injection Hch as Hch.
  rewrite downloadFile_outcome in Hdl.
  pose proof (run_summary_holds AdmZip cfg url w Hurl Hne) as H. fold run w' in H.
  pose proof (mkdir_frame (docsDir cfg) w) as (Hf & Hwd & Hrd & _ & _ & _ & Hdirs & Hdir).
  unfold run_summary in H. rewrite Hch in H. cbn [negb] in H. cbv zeta in H.
  rewrite Hdl, mkdir_with_requests in H. cbn [fst snd] in H.
  rewrite Hmk, Hzip, (written_all _ _ _ Hall), drop_all, take_ge in H by reflexivity.
  assert (forall (v : world) p, exists_at
            (with_files (extracted (docsDir cfg) zip (files w))
                        (with_requests (requests w ++ [url]) (snd (mkdir (docsDir cfg) w)))) p
          = bool_decide (p ∈ dirs (snd (mkdir (docsDir cfg) w)))
            || bool_decide (is_Some (extracted (docsDir cfg) zip (files w) !! p)))
    as Hex by reflexivity.
  rewrite !(Hex w) in H.
  rewrite (bool_decide_eq_true_2 _ (Hdir Hmk)) in H. cbn [orb andb] in H.
  assert (bool_decide (index_path (docsDir cfg) ∈ dirs (snd (mkdir (docsDir cfg) w)))
          || bool_decide (is_Some (extracted (docsDir cfg) zip (files w)
                                     !! index_path (docsDir cfg))) = true) as Hidx.
  { unfold exists_at in Hindex. cbn [dirs files with_files] in Hindex.
    apply orb_prop in Hindex as [Hi|Hi]; [|now rewrite Hi, orb_true_r].
    apply bool_decide_eq_true in Hi.
    now rewrite (bool_decide_eq_true_2 _ (Hdirs _ Hi)). }
  rewrite Hidx in H. destruct H as (Hret & l & Hw & Hwarn).
  unfold saved in Hw. cbn [write_denied with_files with_requests] in Hw.
  rewrite Hwd, decide_True in Hw by assumption.
  assert (files w' = extracted (docsDir cfg) zip (files w)) as Hfiles
    by (rewrite Hw; reflexivity).
  assert (files w' !! id_path (docsDir cfg) = files w !! id_path (docsDir cfg)) as Hid.
  { rewrite Hfiles. apply extracted_lookup_other. intros e He Heq.
    apply (Hall e He). now rewrite Heq. }
  assert (url_changed (docsDir cfg) url w' = true) as Hch'.
  { rewrite <- Hch. apply url_changed_frame; [exact Hid|].
    rewrite Hw. cbn [read_denied with_logs with_files with_requests]. exact Hrd. }
  split; [exact Hret|]. split; [rewrite Hw; apply (Hwarn Hden)|].
  split; [exact Hfiles|]. split; [exact Hid|].
  split; [now rewrite hasUrlChanged_outcome, Hch'|].
  pose proof (run_frame AdmZip cfg url w' Hurl Hne) as (_ & _ & _ & _ & Hreq).
  fold run in Hreq. rewrite Hch' in Hreq. rewrite Hreq, Hw.
  cbn [requests with_logs with_files with_requests].
  now rewrite <- app_assoc.
Qed.

Lemma failed_save_is_only_a_warning_witness :
  let run := downloadAndExtractDocs ex_AdmZip (ex_config "https://host/v2.zip") in
  let w := ex_online {[ "/docs/.last-download-url" ]} in
  fst (run w) = Return ()
  /\ (LWarn, "Failed to save last download URL") ∈ logs (snd (run w))
  /\ files (snd (run w))
     = extracted "/docs" [("class_lookup.json", "index-2"); ("g1", "Qux body")] ex_files
  /\ files (snd (run w)) !! "/docs/.last-download-url" = Some "https://host/v1.zip"
  /\ fst (hasUrlChanged "/docs" "https://host/v2.zip" (snd (run w))) = Return true
  /\ requests (snd (run (snd (run w)))) = ["https://host/v2.zip"; "https://host/v2.zip"].
Proof.
  refine (failed_save_is_only_a_warning
            ex_AdmZip (ex_config "https://host/v2.zip") "https://host/v2.zip" "zip-2"
            (ex_online {[ "/docs/.last-download-url" ]})
            [("class_lookup.json", "index-2"); ("g1", "Qux body")]
            _ _ _ _ _ _ _ _ _).
  - reflexivity.
  - discriminate.
  - vm_compute. reflexivity.
  - vm_compute. reflexivity.
  - reflexivity.
  - vm_compute. reflexivity.
  - intros e He.
    repeat (apply elem_of_cons in He as [-> | He];
            [vm_compute; intros Hin; discriminate Hin|]).
    now apply elem_of_nil in He.
  - vm_compute. reflexivity.
  - vm_compute. reflexivity.
Defined.

(** ** Concrete runs *)

(** An empty query, or one of white space only, is refused on a loaded
    index; it is no search without results. *)
Lemma search_rejects_empty_query JSON_parse args lookupFile w lookup :
  fst (loadLookup JSON_parse lookupFile w) = Return (Some lookup) ->
  JS.trim (JS.toLowerCase (query args)) = "" ->
  fst (searchHytaleClasses JSON_parse args lookupFile w)
  = Throw (new_Error "Search query cannot be empty").
Proof.
  intros Hload Hq. unfold searchHytaleClasses, try_catch, bind.
  destruct (loadLookup JSON_parse lookupFile w) as [r w1]. simpl in Hload. subst r.
  rewrite Hq. reflexivity.
Qed.

(** After the extraction that failed midway, a process that starts on the
    store finds neither bundle: the class of [v1] is unknown to the index of
    [v2], and the class of [v2] has no body. *)
Example half_extracted_store_is_observed :
  let w := ex_online {[ "/docs/g1" ]} in
  let w' := snd (downloadAndExtractDocs ex_AdmZip (ex_config "https://host/v2.zip") w) in
  fst (readHytaleClassDocs ex_JSON_parse {| full_class_name := "a.Foo" |}
         ex_lookupFile ex_docsDir w) = Return "Foo body"
  /\ fst (readHytaleClassDocs ex_JSON_parse {| full_class_name := "a.Foo" |}
            ex_lookupFile ex_docsDir w') = Throw (not_found "a.Foo")
  /\ fst (readHytaleClassDocs ex_JSON_parse {| full_class_name := "b.Qux" |}
            ex_lookupFile ex_docsDir w') = Throw (ENOENT "open" "/docs/g1").
Proof. by_evaluation. Qed.

(** An archive that carries an entry for the identifier file writes it
    during the extraction: here into an empty store, where validation then
    fails, and the next run takes the identifier for current. *)
Example archive_can_carry_the_identifier :
  let cfg := ex_config "https://host/v4.zip" in
  let w := with_files ∅ (ex_online ∅) in
  let w' := snd (downloadAndExtractDocs ex_AdmZip cfg w) in
  fst (downloadAndExtractDocs ex_AdmZip cfg w) = Throw invalid_bundle
  /\ files w' !! id_path "/docs" = Some "https://host/v4.zip"
  /\ fst (downloadAndExtractDocs ex_AdmZip cfg w') = Return ()
  /\ requests (snd (downloadAndExtractDocs ex_AdmZip cfg w')) = requests w'.
Proof. by_evaluation. Qed.

(** The library sanitises the name of an entry: a name that points outside
    the directory is written inside it, and can so land on the identifier
    file as well. *)
Example sanitised_entry_stays_in_the_store :
  entry_path "/docs" "g1" = "/docs/g1"
  /\ entry_path "/docs" "../x" = "/docs/x"
  /\ entry_path "/docs" "/etc/x" = "/docs/etc/x"
  /\ entry_path "/docs" "sub/../../.last-download-url" = id_path "/docs"
  /\ files (snd (extractAllTo [("../.last-download-url", "other")] "/docs"
                   (ex_online ∅))) !! id_path "/docs" = Some "other".
Proof. by_evaluation. Qed.

(** A name of [Object.prototype] on an index that holds no such class: the
    handler throws the [TypeError] of [path.join], not the error for an
    unknown name. *)
Example read_inherited_name_is_not_reported_unknown :
  resolve_spec ex_lookup "toString" = None
  /\ fst (readHytaleClassDocs ex_JSON_parse {| full_class_name := "toString" |}
            ex_lookupFile ex_docsDir ex_world) = Throw ERR_INVALID_ARG_TYPE.
Proof. by_evaluation. Qed.

Lemma search_rejects_empty_query_witness :
  fst (searchHytaleClasses ex_JSON_parse {| query := "   " |} ex_lookupFile ex_world)
  = Throw (new_Error "Search query cannot be empty").
Proof.
  refine (search_rejects_empty_query ex_JSON_parse {| query := "   " |}
            ex_lookupFile ex_world ex_lookup _ _).
  - vm_compute. reflexivity.
  - vm_compute. reflexivity.
Defined.

(** After the fetch that failed, the bundle on disk still answers. *)
Example stale_bundle_still_answers :
  let w' := snd (downloadAndExtractDocs ex_AdmZip (ex_config "https://host/v2.zip") ex_world) in
  fst (readHytaleClassDocs ex_JSON_parse {| full_class_name := "a.Foo" |}
         ex_lookupFile ex_docsDir w') = Return "Foo body"
  /\ fst (searchHytaleClasses ex_JSON_parse {| query := "foo" |} ex_lookupFile w')
     = Return "- a.Foo (class)".
Proof. by_evaluation. Qed.

(** * Further properties of the sources *)

(** ** The index loader ([utils/lookup.ts]) *)

(** The loader never throws, and what it returns is what the cache holds
    afterwards. A filled cache is returned as it is, without a look at the
    disk. On an empty cache the result is [null] exactly when the index file
    is missing, its read is refused or its text is no JSON, and then the
    failure is in the error log; a file that is read and parsed gives its
    index. The store is left as it was. *)
Theorem loadLookup_returns_what_the_cache_holds
        (JSON_parse : string -> option ClassLookup) (lookupFile : string) (w : world) :
  exists r,
    fst (loadLookup JSON_parse lookupFile w) = Return r
    /\ lookupCache (snd (loadLookup JSON_parse lookupFile w)) = r
    /\ files (snd (loadLookup JSON_parse lookupFile w)) = files w
    /\ dirs (snd (loadLookup JSON_parse lookupFile w)) = dirs w
    /\ requests (snd (loadLookup JSON_parse lookupFile w)) = requests w
    /\ (r = None ->
        (LError, "Failed to load lookup index")
          ∈ logs (snd (loadLookup JSON_parse lookupFile w)))
    /\ (forall cached, lookupCache w = Some cached ->
          r = Some cached /\ snd (loadLookup JSON_parse lookupFile w) = w)
    /\ (lookupCache w = None ->
        (r = None <->
           files w !! lookupFile = None
           \/ lookupFile ∈ read_denied w
           \/ exists data, files w !! lookupFile = Some data /\ JSON_parse data = None)
        /\ (forall data, files w !! lookupFile = Some data ->
                         lookupFile ∉ read_denied w ->
                         r = JSON_parse data)).
Proof.
  unfold loadLookup, try_catch, bind, readFile.
  destruct (lookupCache w) as [cached|] eqn:Hcache.
  { exists (Some cached). cbn [fst snd].
    split; [reflexivity|]. split; [exact Hcache|]. do 3 (split; [reflexivity|]).
    split; [discriminate|]. split; [|intros Hnone; congruence].
    intros c Hc. split; [congruence | reflexivity]. }
  destruct (files w !! lookupFile) as [data|] eqn:Hfile; cbn [fst snd].
  - destruct (decide (lookupFile ∈ read_denied w)) as [Hden|Hok]; cbn [fst snd].
    + exists None. cbn. split; [reflexivity|]. split; [assumption|].
      do 3 (split; [reflexivity|]). split.
      { intros _. rewrite elem_of_app, list_elem_of_singleton. auto. }
      split; [discriminate|]. intros _. split.
      * split; auto.
      * intros d _ Hnot. contradiction.
    + destruct (JSON_parse data) as [parsed|] eqn:Hparse; cbn.
      * exists (Some parsed). do 5 (split; [reflexivity|]).
        split; [discriminate|]. split; [discriminate|]. intros _. split.
        -- split; [discriminate|].
           intros [Hnone | [Hden | (d & [= <-] & Hd)]];
             [discriminate | contradiction | congruence].
        -- intros d [= <-] _. now symmetry.
      * exists None. split; [reflexivity|]. split; [assumption|].
        do 3 (split; [reflexivity|]). split.
        { intros _. rewrite elem_of_app, list_elem_of_singleton. auto. }
        split; [discriminate|]. intros _. split.
        -- split; [|reflexivity]. intros _. right. right. eauto.
        -- intros d [= <-] _. now symmetry.
  - exists None. cbn. split; [reflexivity|]. split; [assumption|].
    do 3 (split; [reflexivity|]). split.
    { intros _. rewrite elem_of_app, list_elem_of_singleton. auto. }
    split; [discriminate|]. intros _. split.
    + split; auto.
    + intros d Hd. discriminate Hd.
Qed.

(** Clearing the cache makes the next load read the disk again, whatever
    was cached before. *)
Theorem clearLookupCache_reloads_from_disk
        (JSON_parse : string -> option ClassLookup) (lookupFile : string) (w : world) :
  fst (clearLookupCache w) = Return ()
  /\ fst (loadLookup JSON_parse lookupFile (snd (clearLookupCache w)))
     = Return (read_index JSON_parse lookupFile w)
  /\ lookupCache (snd (loadLookup JSON_parse lookupFile (snd (clearLookupCache w))))
     = read_index JSON_parse lookupFile w.
Proof.
  split; [reflexivity|].
  assert (lookupCache (snd (clearLookupCache w)) = None) as Hnone by reflexivity.
  destruct (loadLookup_fresh JSON_parse lookupFile _ Hnone) as [Hout Hcache].
  assert (read_index JSON_parse lookupFile (snd (clearLookupCache w))
          = read_index JSON_parse lookupFile w) as Hidx.
  { unfold read_index. now rewrite (readFile_store_only lookupFile w (snd (clearLookupCache w)) eq_refl eq_refl). }
  rewrite Hout, Hcache, Hidx. auto.
Qed.

(** ** The handlers ([tools/handlers.ts]) *)

Lemma searchHytaleClasses_eq JSON_parse args lookupFile w :
  fst (searchHytaleClasses JSON_parse args lookupFile w)
  = match fst (loadLookup JSON_parse lookupFile w) with
    | Return (Some lookup) =>
        if JS.falsy (JS.trim (JS.toLowerCase (query args)))
        then Throw (new_Error "Search query cannot be empty")
        else Return (render_hits
                       (search_hits (JS.trim (JS.toLowerCase (query args))) lookup))
    | Return None => Throw (new_Error "Class lookup index not found")
    | Throw e => Throw e
    end.
Proof.
  unfold searchHytaleClasses, try_catch, bind.
  destruct (loadLookup JSON_parse lookupFile w) as [[[lookup|]|e] w1]; cbn [fst];
    try reflexivity.
  destruct (JS.falsy (JS.trim (JS.toLowerCase (query args)))); [reflexivity|].
  cbn [fst]. now rewrite search_loop_hits, render_hits_code.
Qed.

Lemma handler_store JSON_parse lookupFile (w : world) :
  let w1 := snd (loadLookup JSON_parse lookupFile w) in
  files w1 = files w /\ dirs w1 = dirs w /\ requests w1 = requests w
  /\ read_denied w1 = read_denied w /\ write_denied w1 = write_denied w.
Proof.
  pose proof (loadLookup_store JSON_parse lookupFile w) as (? & ? & ? & ? & ?).
  cbv zeta. auto.
Qed.

Lemma handlers_frame
        (JSON_parse : string -> option ClassLookup)
        (sargs : SearchHytaleClassesArgs) (rargs : ReadHytaleClassDocsArgs)
        (lookupFile docsDir : string) (w : world) :
  (let w' := snd (searchHytaleClasses JSON_parse sargs lookupFile w) in
   files w' = files w /\ dirs w' = dirs w /\ requests w' = requests w)
  /\ (let w' := snd (readHytaleClassDocs JSON_parse rargs lookupFile docsDir w) in
      files w' = files w /\ dirs w' = dirs w /\ requests w' = requests w).
Proof.
  pose proof (handler_store JSON_parse lookupFile w) as (Hf & Hd & Hq & _).
  cbv zeta in *. split.
  - unfold searchHytaleClasses, try_catch, bind.
    destruct (loadLookup JSON_parse lookupFile w) as [[[lookup|]|e] w1];
      cbn [fst snd] in *; cbn; auto.
    destruct (JS.falsy _); cbn; auto.
  - unfold readHytaleClassDocs, try_catch, bind.
    destruct (loadLookup JSON_parse lookupFile w) as [[[lookup|]|e] w1];
      cbn [fst snd] in *; cbn; auto.
    destruct (JS.falsy _); cbn; auto.
    destruct (resolve_class _ _) as [info| |]; cbn; auto.
    unfold readFile.
    destruct (files w1 !! _); cbn; auto.
    destruct (decide _); cbn; auto.
Qed.

(** The two handlers are readers: whatever they are asked and however they
    end, the files and directories of the store and the requests made so
    far are left as they are. *)
Theorem handlers_leave_the_store_untouched
        (JSON_parse : string -> option ClassLookup)
        (sargs : SearchHytaleClassesArgs) (rargs : ReadHytaleClassDocsArgs)
        (lookupFile docsDir : string) (w : world) :
  (let w' := snd (searchHytaleClasses JSON_parse sargs lookupFile w) in
   files w' = files w /\ dirs w' = dirs w /\ requests w' = requests w)
  /\ (let w' := snd (readHytaleClassDocs JSON_parse rargs lookupFile docsDir w) in
      files w' = files w /\ dirs w' = dirs w /\ requests w' = requests w).
Proof.
  exact (handlers_frame JSON_parse sargs rargs lookupFile docsDir w).
Qed.

(** Both handlers depend on their argument through its normal form only:
    the query folded and trimmed, the class name trimmed. *)
Theorem handlers_normalise_their_argument
        (JSON_parse : string -> option ClassLookup)
        (q1 q2 n1 n2 lookupFile docsDir : string) (w : world) :
  JS.trim (JS.toLowerCase q1) = JS.trim (JS.toLowerCase q2) ->
  JS.trim n1 = JS.trim n2 ->
  fst (searchHytaleClasses JSON_parse {| query := q1 |} lookupFile w)
  = fst (searchHytaleClasses JSON_parse {| query := q2 |} lookupFile w)
  /\ fst (readHytaleClassDocs JSON_parse {| full_class_name := n1 |} lookupFile docsDir w)
     = fst (readHytaleClassDocs JSON_parse {| full_class_name := n2 |} lookupFile docsDir w).
Proof.
  intros Hq Hn. rewrite !searchHytaleClasses_eq, !readHytaleClassDocs_eq.
  cbn [query full_class_name]. now rewrite Hq, Hn.
Qed.

Lemma handlers_normalise_their_argument_witness :
  fst (searchHytaleClasses ex_JSON_parse {| query := " BA " |} ex_lookupFile ex_world)
  = fst (searchHytaleClasses ex_JSON_parse {| query := "ba" |} ex_lookupFile ex_world)
  /\ fst (readHytaleClassDocs ex_JSON_parse {| full_class_name := " a.Foo " |}
            ex_lookupFile ex_docsDir ex_world)
     = fst (readHytaleClassDocs ex_JSON_parse {| full_class_name := "a.Foo" |}
              ex_lookupFile ex_docsDir ex_world).
Proof.
  refine (handlers_normalise_their_argument ex_JSON_parse " BA " "ba" " a.Foo " "a.Foo"
            ex_lookupFile ex_docsDir ex_world _ _).
  - vm_compute. reflexivity.
  - vm_compute. reflexivity.
Defined.

(** An index that cannot be loaded is reported before the argument is looked
    at: both handlers throw the same error, also on an empty query or name. *)
Theorem unloaded_index_is_reported_first
        (JSON_parse : string -> option ClassLookup)
        (sargs : SearchHytaleClassesArgs) (rargs : ReadHytaleClassDocsArgs)
        (lookupFile docsDir : string) (w : world) :
  fst (loadLookup JSON_parse lookupFile w) = Return None ->
  fst (searchHytaleClasses JSON_parse sargs lookupFile w)
  = Throw (new_Error "Class lookup index not found")
  /\ fst (readHytaleClassDocs JSON_parse rargs lookupFile docsDir w)
     = Throw (new_Error "Class lookup index not found").
Proof.
  intros Hload. rewrite searchHytaleClasses_eq, readHytaleClassDocs_eq, Hload. auto.
Qed.

Lemma unloaded_index_is_reported_first_witness :
  fst (searchHytaleClasses ex_JSON_parse {| query := "" |} ex_lookupFile
         (with_files ∅ ex_world))
  = Throw (new_Error "Class lookup index not found")
  /\ fst (readHytaleClassDocs ex_JSON_parse {| full_class_name := "a.Foo" |}
            ex_lookupFile ex_docsDir (with_files ∅ ex_world))
     = Throw (new_Error "Class lookup index not found").
Proof.
  refine (unloaded_index_is_reported_first ex_JSON_parse {| query := "" |}
            {| full_class_name := "a.Foo" |} ex_lookupFile ex_docsDir
            (with_files ∅ ex_world) _).
  vm_compute. reflexivity.
Defined.

(** A class name that is empty once trimmed is refused on a loaded index;
    nothing is resolved and no file is read. *)
Theorem read_rejects_empty_name
        (JSON_parse : string -> option ClassLookup)
        (args : ReadHytaleClassDocsArgs) (lookupFile docsDir : string)
        (w : world) (lookup : ClassLookup) :
  fst (loadLookup JSON_parse lookupFile w) = Return (Some lookup) ->
  JS.trim (full_class_name args) = "" ->
  fst (readHytaleClassDocs JSON_parse args lookupFile docsDir w)
  = Throw (new_Error "Class name cannot be empty").
Proof.
  intros Hload Hname. rewrite readHytaleClassDocs_eq, Hload, Hname. reflexivity.
Qed.

Lemma read_rejects_empty_name_witness :
  fst (readHytaleClassDocs ex_JSON_parse {| full_class_name := "   " |}
         ex_lookupFile ex_docsDir ex_world)
  = Throw (new_Error "Class name cannot be empty").
Proof.
  refine (read_rejects_empty_name ex_JSON_parse {| full_class_name := "   " |}
            ex_lookupFile ex_docsDir ex_world ex_lookup _ _).
  - vm_compute. reflexivity.
  - vm_compute. reflexivity.
Defined.

(** Bodies are not cached: with the index loaded, Retrieve reads the file of
    the entry on every call, so a body replaced on disk is returned as it is
    now. *)
Theorem retrieve_rereads_the_body
        (JSON_parse : string -> option ClassLookup)
        (args : ReadHytaleClassDocsArgs) (lookupFile docsDir : string)
        (w : world) (lookup : ClassLookup) (info : ClassInfo) :
  lookupCache w = Some lookup ->
  JS.trim (full_class_name args) <> "" ->
  resolve_class lookup (JS.trim (full_class_name args)) = OwnEntry info ->
  Path.join docsDir (path info) ∉ read_denied w ->
  forall body : string,
    fst (readHytaleClassDocs JSON_parse args lookupFile docsDir
           (with_files (<[Path.join docsDir (path info) := body]> (files w)) w))
    = Return body.
Proof.
  intros Hcache Hname Hres Hread body.
  set (w2 := with_files _ w).
  assert (fst (loadLookup JSON_parse lookupFile w2) = Return (Some lookup)) as Hload.
  { now rewrite (loadLookup_cached JSON_parse lookupFile w2 lookup Hcache). }
  rewrite (readHytaleClassDocs_outcome _ _ _ _ _ lookup Hload Hname), Hres.
  apply readFile_returns. split; [|exact Hread].
  subst w2. cbn [files with_files]. apply lookup_insert_eq.
Qed.

Lemma retrieve_rereads_the_body_witness :
  fst (readHytaleClassDocs ex_JSON_parse {| full_class_name := "a.Foo" |}
         ex_lookupFile ex_docsDir
         (with_files (<[ "/docs/f1" := "Foo body, revised" ]> ex_files)
                     (with_lookupCache (Some ex_lookup) ex_world)))
  = Return "Foo body, revised".
Proof.
  refine (retrieve_rereads_the_body ex_JSON_parse {| full_class_name := "a.Foo" |}
            ex_lookupFile ex_docsDir (with_lookupCache (Some ex_lookup) ex_world)
            ex_lookup (mkClassInfo "a.Foo" "f1" KClass "a") _ _ _ _
            "Foo body, revised").
  - reflexivity.
  - vm_compute. discriminate.
  - vm_compute. reflexivity.
  - vm_compute. intros H. discriminate H.
Defined.

Lemma run_keeps_the_cache AdmZip cfg w :
  lookupCache (snd (downloadAndExtractDocs AdmZip cfg w)) = lookupCache w.
Proof.
  destruct (docsUrl cfg) as [url|] eqn:Hurl.
  - destruct (decide (url = "")) as [->|Hne].
    + destruct (run_without_url AdmZip cfg w (or_intror Hurl)) as (_ & l & ->).
      reflexivity.
    + apply (run_frame AdmZip cfg url w Hurl Hne).
  - destruct (run_without_url AdmZip cfg w (or_introl Hurl)) as (_ & l & ->).
    reflexivity.
Qed.

(** A provisioning run does not touch the cache: in a process whose index is
    loaded, searches after the run answer from the index loaded before it,
    whatever bundle the run has installed. *)
Theorem loaded_index_outlives_a_provisioning_run
        (AdmZip : string -> option (list (string * string)))
        (JSON_parse : string -> option ClassLookup)
        (cfg : ServerConfig) (w : world) (lookup : ClassLookup) :
  lookupCache w = Some lookup ->
  let w' := snd (downloadAndExtractDocs AdmZip cfg w) in
  forall (args : SearchHytaleClassesArgs) (lookupFile : string),
    fst (loadLookup JSON_parse lookupFile w') = Return (Some lookup)
    /\ fst (searchHytaleClasses JSON_parse args lookupFile w')
       = fst (searchHytaleClasses JSON_parse args lookupFile w).
Proof.
  intros Hcache w' args lookupFile.
  assert (lookupCache w' = Some lookup) as Hcache'.
  { subst w'. now rewrite run_keeps_the_cache. }
  rewrite !searchHytaleClasses_eq.
  rewrite (loadLookup_cached JSON_parse lookupFile w' lookup Hcache').
  rewrite (loadLookup_cached JSON_parse lookupFile w lookup Hcache).
  auto.
Qed.

Lemma loaded_index_outlives_a_provisioning_run_witness :
  let w := with_lookupCache (Some ex_lookup) (ex_online ∅) in
  let w' := snd (downloadAndExtractDocs ex_AdmZip (ex_config "https://host/v2.zip") w) in
  fst (loadLookup ex_JSON_parse ex_lookupFile w') = Return (Some ex_lookup)
  /\ fst (searchHytaleClasses ex_JSON_parse {| query := "qux" |} ex_lookupFile w')
     = fst (searchHytaleClasses ex_JSON_parse {| query := "qux" |} ex_lookupFile w).
Proof.
  refine (loaded_index_outlives_a_provisioning_run ex_AdmZip ex_JSON_parse
            (ex_config "https://host/v2.zip")
            (with_lookupCache (Some ex_lookup) (ex_online ∅)) ex_lookup _
            {| query := "qux" |} ex_lookupFile).
  reflexivity.
Defined.

Lemma filter_sublist {A} (f : A -> bool) (l : list A) : sublist (List.filter f l) l.
Proof.
  induction l as [|x l IH]; cbn [List.filter]; [constructor|].
  destruct (f x); [now apply sublist_skip | now apply sublist_cons].
Qed.

Lemma filter_elem_of {A} (f : A -> bool) (l : list A) (x : A) :
  x ∈ List.filter f l <-> x ∈ l /\ f x = true.
Proof.
  induction l as [|y l IH]; cbn [List.filter].
  - rewrite elem_of_nil. tauto.
  - destruct (f y) eqn:Hy; rewrite ?elem_of_cons, IH; split.
    + intros [-> | [? ?]]; auto.
    + intros [[-> | ?] ?]; auto.
    + intros [? ?]; auto.
    + intros [[-> | ?] ?]; [congruence | auto].
Qed.

Lemma first_per_path_covers l :
  forall earlier e,
    e ∈ l ->
    path (snd e) ∈ earlier
    \/ exists h, h ∈ first_per_path earlier l /\ path (snd h) = path (snd e).
Proof.
  induction l as [|x rest IH]; intros earlier e He; [now apply elem_of_nil in He|].
  cbn [first_per_path]. apply elem_of_cons in He as [-> | He].
  - destruct (bool_decide (path (snd x) ∈ earlier)) eqn:Hx.
    + left. now apply bool_decide_eq_true in Hx.
    + right. exists x. split; [apply elem_of_cons; now left | reflexivity].
  - destruct (IH (path (snd x) :: earlier) e He) as [Hin | (h & Hh & Hp)].
    + apply elem_of_cons in Hin as [Heq | Hin]; [|now left].
      destruct (bool_decide (path (snd x) ∈ earlier)) eqn:Hx.
      * left. apply bool_decide_eq_true in Hx. now rewrite Heq.
      * right. exists x. split; [apply elem_of_cons; now left | now symmetry].
    + right. exists h. split; [|exact Hp].
      destruct (bool_decide (path (snd x) ∈ earlier)); [exact Hh|].
      apply elem_of_cons. now right.
Qed.

(** The cap, on any index and any query: the search collects one line per
    matching entry with a path not seen before and stops at 25; it returns
    fewer than 25 lines only when fewer paths match. Wherever 25 entries
    with distinct paths match, exactly 25 lines come back, however many more
    match. *)
Theorem search_cap_enforced (q : string) (lookup : ClassLookup) :
  let lines := search_loop q lookup [] ∅ in
  length lines <= 25
  /\ length lines
     = Nat.min 25 (length (first_per_path [] (List.filter (matches_query q) lookup)))
  /\ forall hits : ClassLookup,
       (forall e, e ∈ hits ->
                  e ∈ lookup /\ JS.includes (JS.toLowerCase (fst e)) q = true) ->
       NoDup (map (fun e => path (snd e)) hits) ->
       25 <= length hits ->
       length lines = 25.
Proof.
  cbv zeta. rewrite search_loop_hits, length_map. unfold search_hits.
  rewrite length_take. unfold MAX_SEARCH_RESULTS.
  set (found := first_per_path [] (List.filter (matches_query q) lookup)).
  split; [lia|]. split; [reflexivity|].
  intros hits Hhits Hnd Hlen.
  assert (length (map (fun e : string * ClassInfo => path (snd e)) hits)
          <= length (map (fun e : string * ClassInfo => path (snd e)) found)) as Hle.
  { apply submseteq_length, NoDup_submseteq; [exact Hnd|].
    intros p Hp. apply list_elem_of_fmap in Hp as (e & -> & He).
    destruct (Hhits e He) as [Hin Hm].
    assert (e ∈ List.filter (matches_query q) lookup) as Hf
      by (apply filter_elem_of; auto).
    destruct (first_per_path_covers _ [] e Hf) as [Hnil | (h & Hh & Hp)];
      [now apply elem_of_nil in Hnil|].
    apply list_elem_of_fmap. exists h. split; [now symmetry | exact Hh]. }
  rewrite !length_map in Hle. lia.
Qed.

Lemma search_cap_enforced_witness :
  length (search_loop "pkg" ex_lookup_100 [] ∅) = 25
  /\ length (List.filter (matches_query "pkg") ex_lookup_100) = 100.
Proof.
  split; [|vm_compute; reflexivity].
  apply (proj2 (proj2 (search_cap_enforced "pkg" ex_lookup_100)) ex_lookup_100).
  - intros e He. split; [exact He|]. apply list_elem_of_In in He. revert e He.
    apply (proj1 (forallb_forall
                    (fun e : string * ClassInfo =>
                       JS.includes (JS.toLowerCase (fst e)) "pkg")
                    ex_lookup_100)).
    vm_compute. reflexivity.
  - apply (bool_decide_unpack
             (NoDup (map (fun e : string * ClassInfo => path (snd e)) ex_lookup_100))).
    vm_compute. exact I.
  - vm_compute. lia.
Defined.

(** What a search shows, said without the loop: the lines come from entries
    of the index, in index order, at most 25 of them; the key of each
    contains the folded query as a substring once folded itself; and no two
    of them have the same path. *)
Theorem search_lines_come_from_distinct_matching_entries
        (q : string) (lookup : ClassLookup) :
  exists hits : ClassLookup,
    search_loop q lookup [] ∅ = map (fun e => result_line (snd e)) hits
    /\ sublist hits lookup
    /\ length hits <= 25
    /\ NoDup (map (fun e => path (snd e)) hits)
    /\ forall e, e ∈ hits ->
                 exists pre post, JS.toLowerCase (fst e) = pre +:+ q +:+ post.
Proof.
  exists (search_hits q lookup). split; [apply search_loop_hits|].
  assert (sublist (search_hits q lookup)
                  (first_per_path [] (List.filter (matches_query q) lookup))) as Hsub
    by apply sublist_take.
  split; [|split; [apply search_hits_capped|split]].
  - etransitivity; [exact Hsub|].
    etransitivity; [apply first_per_path_sublist | apply filter_sublist].
  - eapply sublist_NoDup;
      [apply (first_per_path_NoDup (List.filter (matches_query q) lookup) [])|].
    apply (fmap_sublist (fun e : string * ClassInfo => path (snd e))). exact Hsub.
  - intros e He. apply includes_spec.
    pose proof (elem_of_sublist _ _ _ He Hsub) as Hf.
    pose proof (elem_of_sublist _ _ _ Hf
                  (first_per_path_sublist (List.filter (matches_query q) lookup) []))
      as Hm.
    now apply filter_elem_of in Hm as [_ Hm].
Qed.

(** Below the cap nothing is lost: when a search shows fewer than 25 lines,
    every entry of the index whose key contains the query is shown, or an
    earlier entry with the same path is. *)
Theorem search_below_the_cap_is_complete
        (q : string) (lookup : ClassLookup) (e : string * ClassInfo) :
  length (search_loop q lookup [] ∅) < 25 ->
  e ∈ lookup ->
  JS.includes (JS.toLowerCase (fst e)) q = true ->
  exists h, h ∈ lookup
            /\ path (snd h) = path (snd e)
            /\ JS.includes (JS.toLowerCase (fst h)) q = true
            /\ result_line (snd h) ∈ search_loop q lookup [] ∅.
Proof.
  intros Hlen He Hm. rewrite search_loop_hits in Hlen |- *.
  rewrite length_map in Hlen. unfold search_hits in *.
  assert (take MAX_SEARCH_RESULTS
               (first_per_path [] (List.filter (matches_query q) lookup))
          = first_per_path [] (List.filter (matches_query q) lookup)) as Htake.
  { apply take_ge. rewrite length_take in Hlen. unfold MAX_SEARCH_RESULTS in *. lia. }
  rewrite Htake.
  assert (e ∈ List.filter (matches_query q) lookup) as Hin
    by (apply filter_elem_of; auto).
  destruct (first_per_path_covers _ [] e Hin) as [Hnil | (h & Hh & Hp)];
    [now apply elem_of_nil in Hnil|].
  pose proof (elem_of_sublist _ _ _ Hh
                (first_per_path_sublist (List.filter (matches_query q) lookup) []))
    as Hf.
  apply filter_elem_of in Hf as [Hl Hmh].
  exists h. repeat split; auto.
  apply list_elem_of_fmap. now exists h.
Qed.

Lemma search_below_the_cap_is_complete_witness :
  exists h, h ∈ ex_lookup
            /\ path (snd h) = "f1"
            /\ JS.includes (JS.toLowerCase (fst h)) "a." = true
            /\ result_line (snd h) ∈ search_loop "a." ex_lookup [] ∅.
Proof.
  refine (search_below_the_cap_is_complete "a." ex_lookup
            ("a.Baz", mkClassInfo "a.Baz" "f1" KInterface "a") _ _ _).
  - vm_compute. lia.
  - apply elem_of_cons. right. apply elem_of_cons. right.
    apply elem_of_cons. now left.
  - vm_compute. reflexivity.
Defined.

(** ** The tool execution handler ([index.ts]) *)

Lemma callTool_outcome (c : async string) (w : world) :
  (try_catch
     (content <- c ;; ret {| result_text := content; isError := false |})
     (fun error =>
        ret {| result_text := "Error: " +:+ err_message error; isError := true |}) w)
  = (Return (tool_result (fst (c w))), snd (c w)).
Proof.
  unfold try_catch, bind, ret. destruct (c w) as [[content|e] w1]; reflexivity.
Qed.

Lemma tool_call_store JSON_parse args lookupFile docsDir (w : world) :
  (let w' := snd (searchHytaleClasses_call JSON_parse args lookupFile w) in
   files w' = files w /\ dirs w' = dirs w /\ requests w' = requests w)
  /\ (let w' := snd (readHytaleClassDocs_call JSON_parse args lookupFile docsDir w) in
      files w' = files w /\ dirs w' = dirs w /\ requests w' = requests w).
Proof.
  pose proof (handler_store JSON_parse lookupFile w) as (Hf & Hd & Hq & _).
  cbv zeta in *.
  unfold searchHytaleClasses_call, readHytaleClassDocs_call. split.
  - destruct (arg_query args) as [q|].
    + apply (handlers_frame
               JSON_parse {| query := q |} {| full_class_name := "" |}
               lookupFile docsDir w).
    + unfold try_catch, bind.
      destruct (loadLookup JSON_parse lookupFile w) as [[[lookup|]|e] w1];
        cbn [fst snd] in *; cbn; auto.
  - destruct (arg_full_class_name args) as [n|].
    + apply (handlers_frame
               JSON_parse {| query := "" |} {| full_class_name := n |}
               lookupFile docsDir w).
    + unfold try_catch, bind.
      destruct (loadLookup JSON_parse lookupFile w) as [[[lookup|]|e] w1];
        cbn [fst snd] in *; cbn; auto.
Qed.

Lemma callTool_eq JSON_parse config request w :
  callTool JSON_parse config request w
  = (Return (tool_result
               (fst ((if String.eqb (tool_name request) "search_hydocs_classes" then
                        searchHytaleClasses_call JSON_parse (tool_arguments_of request)
                                                 (lookupFile config)
                      else if String.eqb (tool_name request) "read_hydocs_class_docs" then
                        readHytaleClassDocs_call JSON_parse (tool_arguments_of request)
                                                 (lookupFile config) (docsDir config)
                      else throw (new_Error ("Unknown tool: " +:+ tool_name request))) w))),
     snd ((if String.eqb (tool_name request) "search_hydocs_classes" then
             searchHytaleClasses_call JSON_parse (tool_arguments_of request)
                                      (lookupFile config)
           else if String.eqb (tool_name request) "read_hydocs_class_docs" then
             readHytaleClassDocs_call JSON_parse (tool_arguments_of request)
                                      (lookupFile config) (docsDir config)
           else throw (new_Error ("Unknown tool: " +:+ tool_name request))) w)).
Proof. unfold callTool. cbv zeta. apply callTool_outcome. Qed.

(** No error passes the tool boundary: whatever the tool, its arguments and
    the state of the store, a tool call returns a result, made of the outcome
    of the tool that the name selects (the search handler, the read handler,
    or the rejection of an unknown name): the text a tool returns comes back
    as it is, and the error a tool throws comes back as its message behind
    [Error: ], marked [isError]. The call leaves the files and directories
    of the store and the requests made so far as they are. *)
Theorem callTool_never_throws
        (JSON_parse : string -> option ClassLookup)
        (config : ServerConfig) (request : CallToolRequest) (w : world) :
  let name := tool_name request in
  let args := tool_arguments_of request in
  let result := fst (callTool JSON_parse config request w) in
  let made_of (o : outcome string) :=
    (forall content, o = Return content ->
       result = Return {| result_text := content; isError := false |})
    /\ (forall e, o = Throw e ->
          result = Return {| result_text := "Error: " +:+ err_message e;
                             isError := true |}) in
  (name = "search_hydocs_classes" ->
   made_of (fst (searchHytaleClasses_call JSON_parse args (lookupFile config) w)))
  /\ (name = "read_hydocs_class_docs" ->
      made_of (fst (readHytaleClassDocs_call JSON_parse args (lookupFile config)
                      (docsDir config) w)))
  /\ (name <> "search_hydocs_classes" -> name <> "read_hydocs_class_docs" ->
      made_of (Throw (new_Error ("Unknown tool: " +:+ name))))
  /\ (exists r, result = Return r)
  /\ files (snd (callTool JSON_parse config request w)) = files w
  /\ dirs (snd (callTool JSON_parse config request w)) = dirs w
  /\ requests (snd (callTool JSON_parse config request w)) = requests w.
Proof.
  cbv zeta. rewrite callTool_eq. cbn [fst snd].
  pose proof (tool_call_store JSON_parse (tool_arguments_of request)
                              (lookupFile config) (docsDir config) w) as [Hs Hr].
  cbv zeta in Hs, Hr.
  split; [|split; [|split; [|split]]].
  - intros ->. cbn [String.eqb Ascii.eqb Bool.eqb andb].
    split; [intros content -> | intros e ->]; reflexivity.
  - intros Hname. rewrite Hname. cbn [String.eqb Ascii.eqb Bool.eqb andb].
    split; [intros content -> | intros e ->]; reflexivity.
  - intros Hns Hnr. apply String.eqb_neq in Hns, Hnr. rewrite Hns, Hnr.
    split; [intros content Hc; discriminate Hc | intros e [= <-]; reflexivity].
  - eexists. reflexivity.
  - destruct (String.eqb (tool_name request) "search_hydocs_classes"); [exact Hs|].
    destruct (String.eqb (tool_name request) "read_hydocs_class_docs"); [exact Hr|].
    cbn. auto.
Qed.

Lemma callTool_never_throws_witness :
  fst (callTool ex_JSON_parse (ex_config "")
         {| tool_name := "read_hydocs_class_docs";
            tool_arguments_of := {| arg_query := None;
                                    arg_full_class_name := Some "no.Such" |} |}
         ex_world)
  = Return {| result_text := "Error: " +:+ err_message (not_found "no.Such");
              isError := true |}.
Proof.
  refine (proj2 (proj1 (proj2 (callTool_never_throws
                                 ex_JSON_parse (ex_config "")
                                 {| tool_name := "read_hydocs_class_docs";
                                    tool_arguments_of :=
                                      {| arg_query := None;
                                         arg_full_class_name := Some "no.Such" |} |}
                                 ex_world)) eq_refl) (not_found "no.Such") _).
  vm_compute. reflexivity.
Defined.

(** A tool call under any other name than the two tools is answered with
    [Error: Unknown tool: <name>]; the index is not loaded for it and nothing
    is logged. *)
Theorem callTool_unknown_tool
        (JSON_parse : string -> option ClassLookup)
        (config : ServerConfig) (request : CallToolRequest) (w : world) :
  tool_name request <> "search_hydocs_classes" ->
  tool_name request <> "read_hydocs_class_docs" ->
  callTool JSON_parse config request w
  = (Return {| result_text := "Error: Unknown tool: " +:+ tool_name request;
               isError := true |}, w).
Proof.
  intros Hs Hr. rewrite callTool_eq.
  apply String.eqb_neq in Hs, Hr. rewrite Hs, Hr. reflexivity.
Qed.

Lemma callTool_unknown_tool_witness :
  callTool ex_JSON_parse (ex_config "")
           {| tool_name := "search_classes";
              tool_arguments_of := {| arg_query := Some "foo";
                                      arg_full_class_name := None |} |}
           ex_world
  = (Return {| result_text := "Error: Unknown tool: search_classes"; isError := true |},
     ex_world).
Proof.
  refine (callTool_unknown_tool ex_JSON_parse (ex_config "")
            {| tool_name := "search_classes";
               tool_arguments_of := {| arg_query := Some "foo";
                                       arg_full_class_name := None |} |}
            ex_world _ _); discriminate.
Defined.

(** A tool call without the argument its tool reads is answered with an
    error text as well: the [TypeError] of the property access does not
    pass the boundary either. *)
Theorem callTool_missing_argument
        (JSON_parse : string -> option ClassLookup)
        (config : ServerConfig) (w : world) (lookup : ClassLookup)
        (other : option string) :
  fst (loadLookup JSON_parse (lookupFile config) w) = Return (Some lookup) ->
  fst (callTool JSON_parse config
         {| tool_name := "search_hydocs_classes";
            tool_arguments_of := {| arg_query := None;
                                    arg_full_class_name := other |} |} w)
  = Return {| result_text :=
                "Error: Cannot read properties of undefined (reading 'toLowerCase')";
              isError := true |}
  /\ fst (callTool JSON_parse config
            {| tool_name := "read_hydocs_class_docs";
               tool_arguments_of := {| arg_query := other;
                                       arg_full_class_name := None |} |} w)
     = Return {| result_text :=
                   "Error: Cannot read properties of undefined (reading 'trim')";
                 isError := true |}.
Proof.
  intros Hload. rewrite !callTool_eq. cbn [fst tool_name tool_arguments_of].
  cbn [String.eqb Ascii.eqb Bool.eqb andb].
  unfold searchHytaleClasses_call, readHytaleClassDocs_call.
  cbn [arg_query arg_full_class_name]. unfold try_catch, bind.
  destruct (loadLookup JSON_parse (lookupFile config) w) as [r w1].
  cbn [fst] in Hload. subst r. split; reflexivity.
Qed.

Lemma callTool_missing_argument_witness :
  fst (callTool ex_JSON_parse (ex_config "")
         {| tool_name := "search_hydocs_classes";
            tool_arguments_of := {| arg_query := None;
                                    arg_full_class_name := Some "a.Foo" |} |} ex_world)
  = Return {| result_text :=
                "Error: Cannot read properties of undefined (reading 'toLowerCase')";
              isError := true |}
  /\ fst (callTool ex_JSON_parse (ex_config "")
            {| tool_name := "read_hydocs_class_docs";
               tool_arguments_of := {| arg_query := Some "a.Foo";
                                       arg_full_class_name := None |} |} ex_world)
     = Return {| result_text :=
                   "Error: Cannot read properties of undefined (reading 'trim')";
                 isError := true |}.
Proof.
  refine (callTool_missing_argument ex_JSON_parse (ex_config "") ex_world ex_lookup
            (Some "a.Foo") _).
  vm_compute. reflexivity.
Defined.



(** ** The steps of the provisioner ([utils/download.ts]) *)

(** A download makes exactly one request and writes nothing. It returns the
    body of a reply with a success status; any other status is thrown as
    [HTTP <status>: <text>], a request aborted by the timer as
    [Download timeout after <n>ms], and a rejection of [fetch] as it is. An
    [AbortError] is never what the caller sees. *)
Theorem downloadFile_reports_status_and_timeout
        (url : string) (timeout : N) (w : world) :
  let o := fst (downloadFile url timeout w) in
  let w' := snd (downloadFile url timeout w) in
  requests w' = requests w ++ [url]
  /\ files w' = files w
  /\ dirs w' = dirs w
  /\ (forall status statusText body,
         remote w url = Reply status statusText body ->
         o = if response_ok status then Return body
             else Throw (new_Error ("HTTP " +:+ pretty status +:+ ": " +:+ statusText)))
  /\ (remote w url = NoAnswer ->
      o = Throw (new_Error ("Download timeout after " +:+ pretty timeout +:+ "ms")))
  /\ (remote w url = Unreachable -> o = Throw fetch_failed)
  /\ (forall e, o = Throw e -> err_name e <> "AbortError").
Proof.
  cbv zeta.
  destruct (downloadFile_spec url timeout w) as (Ho & l & Hw).
  rewrite Ho, Hw. cbn [requests files dirs with_logs with_requests].
  repeat split.
  - intros status statusText body ->. reflexivity.
  - intros ->. reflexivity.
  - intros ->. reflexivity.
  - intros e He.
    destruct (remote w url) as [status statusText body| |]; cbn in He.
    + destruct (response_ok status); [discriminate He|].
      injection He as <-. cbn. discriminate.
    + injection He as <-. cbn. discriminate.
    + injection He as <-. cbn. discriminate.
Qed.

(** The comparison of identifiers never throws: an identifier file that is
    missing or unreadable counts as a change. It answers [false] only for a
    readable file whose content equals the identifier up to surrounding
    white space; it writes nothing. *)
Theorem hasUrlChanged_never_throws (dir url : string) (w : world) :
  exists changed : bool,
    fst (hasUrlChanged dir url w) = Return changed
    /\ (changed = false <->
        exists stored, fst (readFile (id_path dir) w) = Return stored
                       /\ JS.trim stored = JS.trim url)
    /\ files (snd (hasUrlChanged dir url w)) = files w
    /\ dirs (snd (hasUrlChanged dir url w)) = dirs w
    /\ requests (snd (hasUrlChanged dir url w)) = requests w.
Proof.
  destruct (hasUrlChanged_spec dir url w) as (Ho & l & Hw).
  exists (url_changed dir url w). rewrite Ho, Hw.
  split; [reflexivity|]. split; [|auto].
  unfold url_changed.
  destruct (fst (readFile (id_path dir) w)) as [stored|e]; split.
  - intros Heq. exists stored. split; [reflexivity|].
    apply negb_false_iff in Heq. now apply String.eqb_eq.
  - intros (s & [= <-] & Htrim). rewrite Htrim, String.eqb_refl. reflexivity.
  - discriminate.
  - intros (s & Hs & _). discriminate Hs.
Qed.

(** Saving the identifier never throws. It touches no path but the
    identifier file, and when the write is refused it touches none. *)
Theorem saveLastUrl_never_throws (dir url : string) (w : world) :
  let w' := snd (saveLastUrl dir url w) in
  fst (saveLastUrl dir url w) = Return ()
  /\ dirs w' = dirs w
  /\ requests w' = requests w
  /\ (forall p, p <> id_path dir -> files w' !! p = files w !! p)
  /\ (id_path dir ∈ write_denied w -> files w' = files w)
  /\ (id_path dir ∉ write_denied w -> files w' !! id_path dir = Some url).
Proof.
  cbv zeta.
  destruct (saveLastUrl_spec dir url w) as (Ho & l & Hw & _).
  rewrite Ho, Hw. unfold saved.
  destruct (decide (id_path dir ∈ write_denied w)) as [Hden|Hok];
    cbn [files dirs requests with_logs with_files].
  - repeat split; auto. intros Hnot. contradiction.
  - repeat split; auto.
    + intros p Hp. now apply lookup_insert_ne.
    + intros Hden. contradiction.
    + intros _. apply lookup_insert_eq.
Qed.

(** Saving and comparing round-trip: after an identifier was saved (its file
    being writable and readable), the comparison with an identifier answers
    whether the two differ once trimmed; with the saved one it answers no. *)
Theorem saved_identifier_is_recognised (dir saved_url url : string) (w : world) :
  id_path dir ∉ write_denied w ->
  id_path dir ∉ read_denied w ->
  fst (hasUrlChanged dir url (snd (saveLastUrl dir saved_url w)))
  = Return (negb (String.eqb (JS.trim saved_url) (JS.trim url)))
  /\ fst (hasUrlChanged dir saved_url (snd (saveLastUrl dir saved_url w)))
     = Return false.
Proof.
  intros Hwd Hrd.
  destruct (saveLastUrl_spec dir saved_url w) as (_ & l & Hw & _).
  unfold saved in Hw. rewrite decide_False in Hw by assumption.
  assert (fst (readFile (id_path dir) (snd (saveLastUrl dir saved_url w)))
          = Return saved_url) as Hread.
  { apply readFile_returns. rewrite Hw. cbn [files read_denied with_logs with_files].
    split; [apply lookup_insert_eq | exact Hrd]. }
  rewrite !hasUrlChanged_outcome, !(url_changed_stored _ _ _ _ Hread).
  now rewrite String.eqb_refl.
Qed.

Lemma saved_identifier_is_recognised_witness :
  fst (hasUrlChanged "/docs" "https://host/v2.zip"
         (snd (saveLastUrl "/docs" " https://host/v3.zip " ex_world)))
  = Return true
  /\ fst (hasUrlChanged "/docs" " https://host/v3.zip "
            (snd (saveLastUrl "/docs" " https://host/v3.zip " ex_world)))
     = Return false.
Proof.
  refine (saved_identifier_is_recognised "/docs" " https://host/v3.zip "
            "https://host/v2.zip" ex_world _ _).
  - vm_compute. intros H. discriminate H.
  - vm_compute. intros H. discriminate H.
Defined.

Lemma extractZip_summary AdmZip buffer dir w :
  let o := fst (extractZip AdmZip buffer dir w) in
  let w' := snd (extractZip AdmZip buffer dir w) in
  match fst (mkdir dir w) with
  | Throw e => o = Throw (extraction_failed e) /\ exists l, w' = with_logs l w
  | Return _ =>
      match AdmZip buffer with
      | None =>
          o = Throw (extraction_failed INVALID_FORMAT)
          /\ exists l, w' = with_logs l (snd (mkdir dir w))
      | Some zip =>
          match drop (written (write_denied w) dir zip) zip with
          | e :: _ =>
              o = Throw (extraction_failed (EACCES "open" (entry_path dir (fst e))))
              /\ exists l, w' = with_logs l
                     (with_files
                        (extracted dir (take (written (write_denied w) dir zip) zip) (files w))
                        (snd (mkdir dir w)))
          | [] =>
              o = Return ()
              /\ exists l, w' = with_logs l
                     (with_files
                        (extracted dir (take (written (write_denied w) dir zip) zip) (files w))
                        (snd (mkdir dir w)))
          end
      end
  end.
Proof.
  cbv zeta. pose proof (extractZip_spec AdmZip buffer dir w (logs w)) as H.
  rewrite with_logs_id in H. exact H.
Qed.



(** A buffer that is no archive: the extraction throws and no file of the
    store is written. *)
Theorem extractZip_of_no_archive_writes_nothing
        (AdmZip : string -> option (list (string * string)))
        (buffer dir : string) (w : world) :
  AdmZip buffer = None ->
  (exists e, fst (extractZip AdmZip buffer dir w) = Throw e)
  /\ files (snd (extractZip AdmZip buffer dir w)) = files w.
Proof.
  intros Hzip. pose proof (extractZip_summary AdmZip buffer dir w) as H.
  pose proof (mkdir_frame dir w) as (Hf & _).
  cbv zeta in H. rewrite Hzip in H.
  destruct (fst (mkdir dir w)) as [[]|cause]; destruct H as (Ho & l & Hw);
    rewrite Ho, Hw; cbn [files with_logs]; eauto.
Qed.

Lemma extractZip_of_no_archive_writes_nothing_witness :
  (exists e, fst (extractZip ex_AdmZip "not a zip" "/docs" ex_world) = Throw e)
  /\ files (snd (extractZip ex_AdmZip "not a zip" "/docs" ex_world)) = files ex_world.
Proof.
  refine (extractZip_of_no_archive_writes_nothing ex_AdmZip "not a zip" "/docs"
            ex_world _).
  reflexivity.
Defined.

Lemma extracted_keeps dir zip :
  forall f p, is_Some (f !! p) -> is_Some (extracted dir zip f !! p).
Proof.
  induction zip as [|x rest IH]; intros f p Hp; [exact Hp|].
  unfold extracted in *. cbn [fold_left]. apply IH.
  destruct (decide (entry_path dir (fst x) = p)) as [->|Hne].
  - rewrite lookup_insert_eq. eauto.
  - now rewrite lookup_insert_ne.
Qed.

Lemma extracted_is_Some dir zip :
  forall f e, e ∈ zip -> is_Some (extracted dir zip f !! entry_path dir (fst e)).
Proof.
  induction zip as [|x rest IH]; intros f e He; [now apply elem_of_nil in He|].
  apply elem_of_cons in He as [-> | He].
  - unfold extracted. cbn [fold_left]. apply extracted_keeps.
    rewrite lookup_insert_eq. eauto.
  - unfold extracted in *. cbn [fold_left]. now apply IH.
Qed.




(** Extraction followed by validation: an archive that carries the index
    file, extracted with every write accepted, passes. *)
Theorem extracted_archive_with_index_passes_validation
        (AdmZip : string -> option (list (string * string)))
        (buffer dir : string) (w : world) (zip : list (string * string))
        (index : string * string) :
  fst (mkdir dir w) = Return () ->
  AdmZip buffer = Some zip ->
  (forall e, e ∈ zip -> entry_path dir (fst e) ∉ write_denied w) ->
  index ∈ zip ->
  entry_path dir (fst index) = index_path dir ->
  fst (validateDocsDirectory dir (snd (extractZip AdmZip buffer dir w))) = Return true.
Proof.
  intros Hmk Hzip Hall Hin Hpath.
  pose proof (extractZip_summary AdmZip buffer dir w) as H.
  pose proof (mkdir_frame dir w) as (_ & _ & _ & _ & _ & _ & _ & Hdir).
  cbv zeta in H.
  rewrite Hmk, Hzip, (written_all _ _ _ Hall), drop_all, take_ge in H by reflexivity.
  destruct H as (_ & l & Hw).
  rewrite validateDocsDirectory_outcome, Hw. unfold exists_at.
  cbn [files dirs with_logs with_files].
  rewrite (bool_decide_eq_true_2 _ (Hdir Hmk)). cbn [orb andb].
  rewrite <- Hpath.
  rewrite (bool_decide_eq_true_2 _ (extracted_is_Some dir zip (files w) index Hin)).
  now rewrite orb_true_r.
Qed.

Lemma extracted_archive_with_index_passes_validation_witness :
  fst (validateDocsDirectory "/docs"
         (snd (extractZip ex_AdmZip "zip-3" "/docs" (with_files ∅ ex_world))))
  = Return true.
Proof.
  refine (extracted_archive_with_index_passes_validation ex_AdmZip "zip-3" "/docs"
            (with_files ∅ ex_world) [("class_lookup.json", "index-2")]
            ("class_lookup.json", "index-2") _ _ _ _ _).
  - vm_compute. reflexivity.
  - reflexivity.
  - intros e He. vm_compute. intros Hin. discriminate Hin.
  - apply list_elem_of_singleton. reflexivity.
  - vm_compute. reflexivity.
Defined.

(** ** Whole provisioning runs ([downloadAndExtractDocs]) *)

(** A run through all steps installs the bundle and records it: when the
    identifier has changed, the host replies with an archive, every write is
    accepted and the index file is in the extracted store, the run returns
    after one request, the store holds the extracted entries and the
    configured identifier, and the comparison of identifiers then finds no
    change. *)
Theorem successful_run_installs_and_records_the_bundle
        (AdmZip : string -> option (list (string * string)))
        (cfg : ServerConfig) (url body : string) (w : world)
        (zip : list (string * string)) :
  docsUrl cfg = Some url -> url <> "" ->
  fst (hasUrlChanged (docsDir cfg) url w) = Return true ->
  fst (downloadFile url (docsDownloadTimeout cfg) w) = Return body ->
  AdmZip body = Some zip ->
  fst (mkdir (docsDir cfg) w) = Return () ->
  (forall e, e ∈ zip -> entry_path (docsDir cfg) (fst e) ∉ write_denied w) ->
  exists_at (with_files (extracted (docsDir cfg) zip (files w)) w)
            (index_path (docsDir cfg)) = true ->
  id_path (docsDir cfg) ∉ write_denied w ->
  id_path (docsDir cfg) ∉ read_denied w ->
  let w' := snd (downloadAndExtractDocs AdmZip cfg w) in
  fst (downloadAndExtractDocs AdmZip cfg w) = Return ()
  /\ requests w' = requests w ++ [url]
  /\ files w' = <[id_path (docsDir cfg) := url]> (extracted (docsDir cfg) zip (files w))
  /\ fst (hasUrlChanged (docsDir cfg) url w') = Return false.
Proof.
  intros Hurl Hne Hch Hdl Hzip Hmk Hall Hindex Hwr Hrd. cbv zeta.
  rewrite hasUrlChanged_outcome in Hch. injection Hch as Hch.
  rewrite downloadFile_outcome in Hdl.
  pose proof (run_summary_holds AdmZip cfg url w Hurl Hne) as H.
  pose proof (mkdir_frame (docsDir cfg) w) as (Hf & Hwd & Hrd' & Hrq & _ & _ & Hdirs & Hdir).
  unfold run_summary in H. rewrite Hch in H. cbn [negb] in H. cbv zeta in H.
  rewrite Hdl, mkdir_with_requests in H. cbn [fst snd] in H.
  rewrite Hmk, Hzip, (written_all _ _ _ Hall), drop_all, take_ge in H by reflexivity.
  unfold exists_at in H, Hindex.
  cbn [dirs files with_files with_requests] in H, Hindex.
  rewrite (bool_decide_eq_true_2 _ (Hdir Hmk)) in H. cbn [orb andb] in H.
  assert (bool_decide (index_path (docsDir cfg) ∈ dirs (snd (mkdir (docsDir cfg) w)))
          || bool_decide (is_Some (extracted (docsDir cfg) zip (files w)
                                     !! index_path (docsDir cfg))) = true) as Hidx.
  { apply orb_prop in Hindex as [Hi|Hi]; [|now rewrite Hi, orb_true_r].
    apply bool_decide_eq_true in Hi.
    now rewrite (bool_decide_eq_true_2 _ (Hdirs _ Hi)). }
  rewrite Hidx in H. destruct H as (Hret & l & Hw & _).
  unfold saved in Hw. cbn [write_denied files with_files with_requests] in Hw.
  rewrite Hwd, decide_False in Hw by assumption.
  split; [exact Hret|]. rewrite Hw.
  cbn [requests files with_logs with_files with_requests].
  split; [reflexivity|]. split; [reflexivity|].
  rewrite hasUrlChanged_outcome.
  erewrite url_changed_stored.
  - now rewrite String.eqb_refl.
  - apply readFile_returns. cbn [files read_denied with_logs with_files with_requests].
    rewrite Hrd'. split; [apply lookup_insert_eq | exact Hrd].
Qed.

Lemma successful_run_installs_and_records_the_bundle_witness :
  let w' := snd (downloadAndExtractDocs ex_AdmZip (ex_config "https://host/v2.zip")
                   (ex_online ∅)) in
  fst (downloadAndExtractDocs ex_AdmZip (ex_config "https://host/v2.zip") (ex_online ∅))
  = Return ()
  /\ requests w' = [] ++ ["https://host/v2.zip"]
  /\ files w'
     = <[ "/docs/.last-download-url" := "https://host/v2.zip" ]>
         (extracted "/docs" [("class_lookup.json", "index-2"); ("g1", "Qux body")] ex_files)
  /\ fst (hasUrlChanged "/docs" "https://host/v2.zip" w') = Return false.
Proof.
  refine (successful_run_installs_and_records_the_bundle
            ex_AdmZip (ex_config "https://host/v2.zip") "https://host/v2.zip" "zip-2"
            (ex_online ∅) [("class_lookup.json", "index-2"); ("g1", "Qux body")]
            _ _ _ _ _ _ _ _ _ _).
  - reflexivity.
  - discriminate.
  - vm_compute. reflexivity.
  - vm_compute. reflexivity.
  - reflexivity.
  - vm_compute. reflexivity.
  - intros e He. vm_compute. intros Hin. discriminate Hin.
  - vm_compute. reflexivity.
  - vm_compute. intros Hin. discriminate Hin.
  - vm_compute. intros Hin. discriminate Hin.
Defined.



Lemma saved_keeps dir url (v : world) p :
  is_Some (files v !! p) -> is_Some (files (saved dir url v) !! p).
Proof.
  unfold saved. destruct (decide (id_path dir ∈ write_denied v)); [auto|].
  cbn [files with_files]. intros Hp.
  destruct (decide (id_path dir = p)) as [->|Hne].
  - rewrite lookup_insert_eq. eauto.
  - now rewrite lookup_insert_ne.
Qed.

(** A provisioning run removes nothing: whatever the configuration and
    however the run ends, every file and every directory that was there
    before is there after it. Files of an earlier bundle that the new
    archive does not name stay in the store. *)
Theorem run_never_deletes
        (AdmZip : string -> option (list (string * string)))
        (cfg : ServerConfig) (w : world) (p : string) :
  let w' := snd (downloadAndExtractDocs AdmZip cfg w) in
  (is_Some (files w !! p) -> is_Some (files w' !! p))
  /\ (p ∈ dirs w -> p ∈ dirs w').
Proof.
  cbv zeta.
  destruct (docsUrl cfg) as [url|] eqn:Hurl.
  2:{ destruct (run_without_url AdmZip cfg w (or_introl Hurl)) as (_ & l & ->). auto. }
  destruct (decide (url = "")) as [->|Hne].
  { destruct (run_without_url AdmZip cfg w (or_intror Hurl)) as (_ & l & ->). auto. }
  pose proof (run_summary_holds AdmZip cfg url w Hurl Hne) as H.
  pose proof (mkdir_frame (docsDir cfg) w) as (Hf & _ & _ & _ & _ & _ & Hdirs & _).
  unfold run_summary in H. cbv zeta in H.
  rewrite mkdir_with_requests in H. cbn [fst snd] in H.
  destruct (url_changed (docsDir cfg) url w); cbn [negb] in H.
  2:{ destruct H as (_ & l & ->). auto. }
  unfold failed_with in H.
  destruct (download_outcome _ _) as [body|e].
  2:{ destruct H as (_ & l & -> & _). auto. }
  destruct (fst (mkdir (docsDir cfg) w)) as [[]|e].
  2:{ destruct H as (_ & l & -> & _). auto. }
  destruct (AdmZip body) as [zip|].
  2:{ destruct H as (_ & l & -> & _). cbn [files dirs with_logs with_requests].
      rewrite Hf. auto. }
  set (store := extracted (docsDir cfg) _ (files w)) in H.
  assert (is_Some (files w !! p) -> is_Some (store !! p)) as Hstore
    by (apply extracted_keeps).
  destruct (drop _ zip) as [|x rest].
  2:{ destruct H as (_ & l & -> & _). cbn [files dirs with_logs with_files with_requests].
      auto. }
  destruct (exists_at _ _ && exists_at _ _).
  2:{ destruct H as (_ & l & -> & _). cbn [files dirs with_logs with_files with_requests].
      auto. }
  destruct H as (_ & l & -> & _). cbn [files dirs with_logs].
  split.
  - intros Hp. apply saved_keeps. cbn [files with_files]. auto.
  - unfold saved. destruct (decide _); cbn [dirs with_files with_requests]; auto.
Qed.


(** A run that fails has logged the failure before it throws, and what it
    throws is the error of the download, an extraction error or the error
    of the validation. *)
Theorem failed_run_is_logged_and_rethrown
        (AdmZip : string -> option (list (string * string)))
        (cfg : ServerConfig) (w : world) (e : js_error) :
  fst (downloadAndExtractDocs AdmZip cfg w) = Throw e ->
  (LError, "Failed to download and extract documentation")
    ∈ logs (snd (downloadAndExtractDocs AdmZip cfg w))
  /\ ((exists url, docsUrl cfg = Some url
                   /\ fst (downloadFile url (docsDownloadTimeout cfg) w) = Throw e)
      \/ (exists cause, e = new_Error ("Failed to extract ZIP: " +:+ err_message cause))
      \/ e = new_Error "Extracted documentation is missing class_lookup.json").
Proof.
  intros He.
  destruct (docsUrl cfg) as [url|] eqn:Hurl.
  2:{ destruct (run_without_url AdmZip cfg w (or_introl Hurl)) as (Hret & _).
      rewrite Hret in He. discriminate He. }
  destruct (decide (url = "")) as [->|Hne].
  { destruct (run_without_url AdmZip cfg w (or_intror Hurl)) as (Hret & _).
    rewrite Hret in He. discriminate He. }
  pose proof (run_summary_holds AdmZip cfg url w Hurl Hne) as H.
  rewrite He in H. unfold run_summary in H. cbv zeta in H.
  destruct (url_changed (docsDir cfg) url w); cbn [negb] in H.
  2:{ destruct H as (H & _). discriminate H. }
  unfold failed_with in H.
  destruct (download_outcome _ _) as [body|e'] eqn:Hdl.
  2:{ destruct H as ([= ->] & l & -> & Hlog). split; [exact Hlog|].
      left. exists url. split; [reflexivity|]. now rewrite downloadFile_outcome. }
  destruct (fst (mkdir _ _)) as [[]|e'].
  2:{ destruct H as ([= ->] & l & -> & Hlog). split; [exact Hlog|].
      right. left. eexists. reflexivity. }
  destruct (AdmZip body) as [zip|].
  2:{ destruct H as ([= ->] & l & -> & Hlog). split; [exact Hlog|].
      right. left. eexists. reflexivity. }
  destruct (drop _ zip) as [|x rest].
  2:{ destruct H as ([= ->] & l & -> & Hlog). split; [exact Hlog|].
      right. left. eexists. reflexivity. }
  destruct (exists_at _ _ && exists_at _ _).
  { destruct H as (H & _). discriminate H. }
  destruct H as ([= ->] & l & -> & Hlog). split; [exact Hlog|].
  right. right. reflexivity.
Qed.

Lemma failed_run_is_logged_and_rethrown_witness :
  let cfg := ex_config "https://host/v9.zip" in
  let e := new_Error "HTTP 404: Not Found" in
  (LError, "Failed to download and extract documentation")
    ∈ logs (snd (downloadAndExtractDocs ex_AdmZip cfg (ex_online ∅)))
  /\ ((exists url, docsUrl cfg = Some url
                   /\ fst (downloadFile url (docsDownloadTimeout cfg) (ex_online ∅)) = Throw e)
      \/ (exists cause, e = new_Error ("Failed to extract ZIP: " +:+ err_message cause))
      \/ e = new_Error "Extracted documentation is missing class_lookup.json").
Proof.
  refine (failed_run_is_logged_and_rethrown ex_AdmZip (ex_config "https://host/v9.zip")
            (ex_online ∅) (new_Error "HTTP 404: Not Found") _).
  vm_compute. reflexivity.
Defined.
